(** * CryptoBot: a shallow embedding of the polling-and-reporting pipeline

    The development follows [cryptoBot1.py] (the full bot: fetch, store,
    analyse, render, notify, scheduler loop), [CryptoBot.py] (the first,
    minimal version of the same loop) and [testcryptodata.py] (one cycle,
    run by hand).

    Conventions of the embedding.
    - A Python [str] is a list of Unicode code points, so that [len] and
      slicing count what Python counts.
    - The numbers of the API payload (Python floats) are exact rationals [Q];
      rounding is outside the model.
    - Effects are explicit: every function that touches the network, the
      disk or the clock is a computation over a [world] that records the
      events in the order the program issues them, and that may raise. *)

From Stdlib Require Import String Ascii List Bool Arith ZArith NArith.
From Stdlib Require Import DecimalString.
From Stdlib Require Import QArith Qabs Qfield Lia Permutation Sorted.
Import ListNotations.

Set Implicit Arguments.
Set Warnings "-abstract-large-number".

(* ================================================================== *)
(** * Python values *)
(* ================================================================== *)

Module Py.

(** A Python string: its code points. *)
Definition char := N.
Definition str := list char.

(** Decoding of UTF-8 bytes into code points. *)
Fixpoint utf8 (bytes : list N) : list char :=
  match bytes with
  | [] => []
  | b :: rest =>
      if (b <? 128)%N then b :: utf8 rest
      else if (b <? 224)%N then
        match rest with
        | c1 :: r => ((b - 192) * 64 + (c1 - 128))%N :: utf8 r
        | _ => []
        end
      else if (b <? 240)%N then
        match rest with
        | c1 :: c2 :: r =>
            ((b - 224) * 4096 + (c1 - 128) * 64 + (c2 - 128))%N :: utf8 r
        | _ => []
        end
      else
        match rest with
        | c1 :: c2 :: c3 :: r =>
            ((b - 240) * 262144 + (c1 - 128) * 4096 + (c2 - 128) * 64
             + (c3 - 128))%N :: utf8 r
        | _ => []
        end
  end.

(** A literal of the source as a Python string. *)
Definition lit (s : string) : str :=
  utf8 (map N_of_ascii (list_ascii_of_string s)).

(** The newline of the source's escapes. *)
Definition nl : str := [10%N].

(** [str(n)] for an integer. *)
Definition str_of_int (z : Z) : str :=
  lit (DecimalString.NilZero.string_of_int (Z.to_int z)).

(** [s[i:j]] for [0 <= i <= j]; the end is clipped to the length of [s]. *)
Definition slice (A : Type) (s : list A) (i j : nat) : list A :=
  firstn (j - i) (skipn i s).

(** The successive values of [range(start, _, step)], [count] of them. *)
Fixpoint range_from (start step count : nat) : list nat :=
  match count with
  | O => []
  | S c => start :: range_from (start + step) step c
  end.

(** [range(start, stop, step)] for a positive [step]: the values
    [start, start + step, ...] below [stop]. *)
Definition range (start stop step : nat) : list nat :=
  range_from start step ((stop - start + (step - 1)) / step).

(** Truth value of a string and of a list: non-empty. *)
Definition truthy (A : Type) (l : list A) : bool :=
  match l with [] => false | _ :: _ => true end.

Definition str_eqb (a b : str) : bool :=
  if list_eq_dec N.eq_dec a b then true else false.

(** Exceptions the modelled code can meet.  [KeyboardInterrupt] is the only
    one that is not an [Exception]: an [except Exception] clause lets it
    through. *)
Inductive exn : Type :=
| KeyError (key : string)
| TypeError
| ZeroDivisionError
| RequestException
| OSError
| KeyboardInterrupt.

Definition is_Exception (e : exn) : bool :=
  match e with
  | KeyboardInterrupt => false
  | _ => true
  end.

Inductive result (A : Type) : Type :=
| Ok (a : A)
| Raise (e : exn).

Arguments Ok {A} a.
Arguments Raise {A} e.

End Py.

Import Py.

(* ================================================================== *)
(** * Data model *)
(* ================================================================== *)

(** The [quote.USD] object of one asset of the listings payload.  A key may
    be absent ([None]); a key that is present holds a number. *)
Record usd_quote : Type := {
  usd_price : option Q;
  usd_market_cap : option Q;
  usd_volume_24h : option Q;
  usd_percent_change_1h : option Q;
  usd_percent_change_24h : option Q;
  usd_percent_change_7d : option Q
}.

(** One element of the payload's [data] array.  [coin_quote] is [None] when
    the key [quote] is absent and [Some None] when [quote] has no [USD]. *)
Record coin : Type := {
  coin_id : option Z;
  coin_name : option str;
  coin_symbol : option str;
  coin_quote : option (option usd_quote)
}.

(** One row of the DataFrame built by [convert_to_dataframe]. *)
Record row : Type := {
  id : Z;
  name : str;
  symbol : str;
  price : Q;
  market_cap : Q;
  volume_24h : Q;
  percent_change_1h : Q;
  percent_change_24h : Q;
  percent_change_7d : Q;
  volume_to_market_cap : Q
}.

Definition dataframe := list row.

(** One tuple inserted into the table [crypto_data] (the timestamp column
    is left out). *)
Record db_record : Type := {
  db_id : Z;
  db_symbol : str;
  db_name : str;
  db_price : Q;
  db_market_cap : Q;
  db_volume_24h : Q;
  db_percent_change_1h : Q;
  db_percent_change_24h : Q;
  db_percent_change_7d : Q
}.

(** The six ranked views returned by [analyze_market_data]; each entry is
    the record of the columns the source projects. *)
Record views : Type := {
  top_gainers : list (str * Q);
  top_losers : list (str * Q);
  high_liquidity : list (str * Q);
  high_volatility : list (str * Q);
  strong_trends : list (str * Q * Q);
  market_dominance : list (str * Q)
}.

(** [analysis_results]: [None] stands for the empty dict [{}]. *)
Definition analysis_results := option views.

(* ================================================================== *)
(** * The outside world *)
(* ================================================================== *)

Inductive level : Type := INFO | ERROR.

(** The answer to [requests.get] on the listings endpoint: its status code
    and what [response.json()["data"]] evaluates to (a list of assets, or an
    exception when the body does not decode or has no [data]). *)
Record response : Type := {
  status_code : Z;
  json_data : result (list coin)
}.

(** A file under [DATA_DIR]: [os.path.join(DATA_DIR, file_name)]. *)
Record path : Type := {
  dir : str;
  file_name : str
}.

(** Everything the program does to the outside, in order. *)
Inductive event : Type :=
| Log (lvl : level) (site : string)
| HttpGet (limit : Z)
| RawFile (filepath : path) (data : list coin)
| DbInsert (r : db_record)
| DbCommit
| DbAnalysis (analysis_type : string) (coin_symbol : str)
| ChartFile (chart_path : path)
| SendMessage (text : str)
| SendPhoto (photo_path : path) (caption : str)
| Sleep (seconds : Z).

(** The state of the outside world: the trace of events so far and what the
    next interactions will meet.
    - [api]: the answers to the next GETs, [None] when the HTTP client
      raises (none left: it raises);
    - [telegram]: whether each of the next POSTs to Telegram returns
      ([true]) or raises (none left: it returns);
    - [signals]: whether each of the next [time.sleep] calls is interrupted
      by the user (none left: it is not);
    - [disk_ok]: whether files under [DATA_DIR] can be written;
    - [files]: the paths that exist;
    - [clock]: seconds elapsed. *)
Record world : Type := {
  trace : list event;
  api : list (option response);
  telegram : list bool;
  signals : list bool;
  disk_ok : bool;
  files : list path;
  clock : Z
}.

Definition emit (e : event) (w : world) : world :=
  {| trace := trace w ++ [e]; api := api w; telegram := telegram w;
     signals := signals w; disk_ok := disk_ok w; files := files w;
     clock := clock w |}.

(** Computations: they read and change the world, and return or raise. *)
Definition M (A : Type) : Type := world -> result A * world.

Definition ret (A : Type) (a : A) : M A := fun w => (Ok a, w).

Definition bind (A B : Type) (m : M A) (k : A -> M B) : M B :=
  fun w =>
    match m w with
    | (Ok a, w') => k a w'
    | (Raise e, w') => (Raise e, w')
    end.

Definition lift (A : Type) (r : result A) : M A := fun w => (r, w).

(** [try: body  except Exception as e: handler e]. *)
Definition try_except (A : Type) (body : M A) (handler : exn -> M A) : M A :=
  fun w =>
    match body w with
    | (Ok a, w') => (Ok a, w')
    | (Raise e, w') =>
        if is_Exception e then handler e w' else (Raise e, w')
    end.

Declare Scope py_scope.
Delimit Scope py_scope with py.
Notation "x <- m ;; k" := (bind m (fun x => k))
  (at level 61, m at next level, right associativity) : py_scope.
Notation "m ;;; k" := (bind m (fun _ => k))
  (at level 61, right associativity) : py_scope.
Open Scope py_scope.

Definition log (lvl : level) (site : string) : M unit :=
  fun w => (Ok tt, emit (Log lvl site) w).

Definition do (e : event) : M unit := fun w => (Ok tt, emit e w).

(** [for x in l: body x]. *)
Fixpoint for_each (A : Type) (l : list A) (body : A -> M unit) : M unit :=
  match l with
  | [] => ret tt
  | x :: rest => body x ;;; for_each rest body
  end.

(** [coin[key]] on a dict whose key may be absent. *)
Definition getitem (A : Type) (key : string) (field : option A) : result A :=
  match field with
  | Some v => Ok v
  | None => Raise (KeyError key)
  end.

(** The pure part of the monad, for expressions that only read a payload. *)
Definition rbind (A B : Type) (r : result A) (k : A -> result B) : result B :=
  match r with
  | Ok a => k a
  | Raise e => Raise e
  end.

Notation "x <~ r ;; k" := (rbind r (fun x => k))
  (at level 61, r at next level, right associativity) : py_scope.

(** [coin["quote"]["USD"][key]]. *)
Definition usd (A : Type) (key : string) (proj : usd_quote -> option A)
    (c : coin) : result A :=
  q <~ getitem "quote" (coin_quote c) ;;
  u <~ getitem "USD" q ;;
  getitem key (proj u).

(** [a / b] on numbers. *)
Definition truediv (a b : Q) : result Q :=
  if Qeq_bool b 0 then Raise ZeroDivisionError else Ok (a / b).

(** [a > b] and [a < b] on numbers. *)
Definition gt (a b : Q) : bool := negb (Qle_bool a b).
Definition lt (a b : Q) : bool := negb (Qle_bool b a).

(* ================================================================== *)
(** * The part of pandas the bot uses *)
(* ================================================================== *)

Module pd.

Section Ranking.

Variable A : Type.

(** Insertion of [x] in front of the first element it may precede. *)
Fixpoint insert (before : A -> A -> bool) (x : A) (l : list A) : list A :=
  match l with
  | [] => [x]
  | y :: rest =>
      if before x y then x :: y :: rest else y :: insert before x rest
  end.

(** A stable sort: among elements that compare equal, the one that comes
    first in [l] comes first in the result. *)
Fixpoint sort (before : A -> A -> bool) (l : list A) : list A :=
  match l with
  | [] => []
  | x :: rest => insert before x (sort before rest)
  end.

(** [df.nlargest(n, column)] with the default [keep='first']: the [n] rows
    of largest [column], in descending order, ties in their order in [df]
    (pandas selects the candidates and orders them with a stable sort on
    the negated values). *)
Definition nlargest (n : nat) (column : A -> Q) (df : list A) : list A :=
  firstn n (sort (fun a b => Qle_bool (column b) (column a)) df).

(** [df.nsmallest(n, column)]: the [n] rows of smallest [column], in
    ascending order, ties in their order in [df]. *)
Definition nsmallest (n : nat) (column : A -> Q) (df : list A) : list A :=
  firstn n (sort (fun a b => Qle_bool (column a) (column b)) df).

End Ranking.

(** [series.sum()]. *)
Definition sum (series : list Q) : Q := fold_right Qplus 0 series.

(** [series.mean()] of a non-empty series. *)
Definition mean (series : list Q) : Q :=
  sum series / inject_Z (Z.of_nat (length series)).

End pd.

(* ================================================================== *)
(** * Primitives of the runtime *)
(* ================================================================== *)

(** Configuration read from the environment when the module is loaded. *)
Record config : Type := {
  FETCH_INTERVAL : Z;
  TOP_N_COINS : Z;
  DATA_DIR : str
}.

(** Library formatting the model does not define: [strftime] of the clock
    reading and [format(x, spec)] of a number. *)
Record platform : Type := {
  strftime : string -> Z -> str;
  format : string -> Q -> str
}.

Definition path_eqb (p q : path) : bool :=
  str_eqb (dir p) (dir q) && str_eqb (file_name p) (file_name q).

(** [requests.get(CMC_URL, ...)]. *)
Definition requests_get (limit : Z) : M response :=
  fun w =>
    let w' := {| trace := trace w ++ [HttpGet limit]; api := tl (api w);
                 telegram := telegram w; signals := signals w;
                 disk_ok := disk_ok w; files := files w; clock := clock w |} in
    match api w with
    | Some r :: _ => (Ok r, w')
    | _ => (Raise RequestException, w')
    end.

(** [requests.post] to Telegram; the request counts as attempted whether
    the call returns or raises. *)
Definition requests_post (request : event) : M unit :=
  fun w =>
    let w' := {| trace := trace w ++ [request]; api := api w;
                 telegram := tl (telegram w); signals := signals w;
                 disk_ok := disk_ok w; files := files w; clock := clock w |} in
    match telegram w with
    | false :: _ => (Raise RequestException, w')
    | _ => (Ok tt, w')
    end.

(** [time.sleep(seconds)]. *)
Definition time_sleep (seconds : Z) : M unit :=
  fun w =>
    let w' := {| trace := trace w ++ [Sleep seconds]; api := api w;
                 telegram := telegram w; signals := tl (signals w);
                 disk_ok := disk_ok w; files := files w;
                 clock := (clock w + seconds)%Z |} in
    match signals w with
    | true :: _ => (Raise KeyboardInterrupt, w')
    | _ => (Ok tt, w')
    end.

(** [datetime.now()]. *)
Definition datetime_now : M Z := fun w => (Ok (clock w), w).

(** Writing a file under [DATA_DIR]; [written] is the event it leaves. *)
Definition write_file (written : event) (p : path) : M unit :=
  fun w =>
    if disk_ok w then
      (Ok tt, {| trace := trace w ++ [written]; api := api w;
                 telegram := telegram w; signals := signals w;
                 disk_ok := disk_ok w; files := p :: files w;
                 clock := clock w |})
    else (Raise OSError, w).

(** [os.path.exists(p)]. *)
Definition os_path_exists (p : path) : M bool :=
  fun w => (Ok (existsb (path_eqb p) (files w)), w).

(** [not data] for a value that is [None] or a list. *)
Definition not_ (A : Type) (data : option (list A)) : bool :=
  match data with
  | Some (_ :: _) => false
  | _ => true
  end.

Definition items (A : Type) (data : option (list A)) : list A :=
  match data with
  | Some l => l
  | None => []
  end.

(** [acc = []; for x in l: acc.append(f(x))]. *)
Fixpoint collect (A B : Type) (f : A -> result B) (l : list A)
    (acc : list B) : result (list B) :=
  match l with
  | [] => Ok acc
  | x :: rest => y <~ f x ;; collect f rest (acc ++ [y])
  end.

(** [message = start; for x in l: message += f(x)]. *)
Definition accumulate (A : Type) (start : str) (f : A -> str)
    (l : list A) : str :=
  fold_left (fun message x => message ++ f x) l start.

(* ================================================================== *)
(** * cryptoBot1.py: fetch and store *)
(* ================================================================== *)

Section Bot.

Variable cfg : config.
Variable plat : platform.

(** [get_crypto_data()]: the payload's [data], or [None] on any failure. *)
Definition get_crypto_data : M (option (list coin)) :=
  try_except
    (response <- requests_get (TOP_N_COINS cfg) ;;
     if (status_code response =? 200)%Z then
       data <- lift (json_data response) ;;
       log INFO "Datos obtenidos correctamente" ;;;
       ret (Some data)
     else
       log ERROR "Error en la API" ;;;
       ret None)
    (fun e =>
       match e with
       | RequestException => log ERROR "Error de conexión" ;;; ret None
       | _ => log ERROR "Error inesperado" ;;; ret None
       end).

(** The tuple of values of the [INSERT INTO crypto_data], evaluated left to
    right. *)
Definition insert_values (c : coin) : result db_record :=
  i <~ getitem "id" (coin_id c) ;;
  s <~ getitem "symbol" (coin_symbol c) ;;
  n <~ getitem "name" (coin_name c) ;;
  p <~ usd "price" usd_price c ;;
  m <~ usd "market_cap" usd_market_cap c ;;
  v <~ usd "volume_24h" usd_volume_24h c ;;
  c1 <~ usd "percent_change_1h" usd_percent_change_1h c ;;
  c24 <~ usd "percent_change_24h" usd_percent_change_24h c ;;
  c7 <~ usd "percent_change_7d" usd_percent_change_7d c ;;
  Ok {| db_id := i; db_symbol := s; db_name := n; db_price := p;
        db_market_cap := m; db_volume_24h := v;
        db_percent_change_1h := c1; db_percent_change_24h := c24;
        db_percent_change_7d := c7 |}.

(** [save_data_to_db(data)]: one insert per asset, each in its own
    [try]; the handler formats its message with [coin['symbol']]. *)
Definition save_data_to_db (data : option (list coin)) : M unit :=
  if not_ data then ret tt
  else
    for_each (items data)
      (fun c =>
         try_except
           (r <- lift (insert_values c) ;; do (DbInsert r))
           (fun _ =>
              _ <- lift (getitem "symbol" (coin_symbol c)) ;;
              log ERROR "Error al guardar")) ;;;
    do DbCommit ;;;
    log INFO "Datos guardados en la base de datos".

(** [save_raw_data(data)]: the payload dumped to a timestamped file. *)
Definition save_raw_data (data : option (list coin)) : M unit :=
  if not_ data then ret tt
  else
    now <- datetime_now ;;
    let filepath :=
      {| dir := DATA_DIR cfg;
         file_name := lit "crypto_data_"
                      ++ strftime plat "%Y%m%d_%H%M%S" now ++ lit ".json" |} in
    write_file (RawFile filepath (items data)) filepath ;;;
    log INFO "Datos crudos guardados".

(** The value of the key [volume_to_market_cap] for one asset:
    [volume_24h / market_cap if market_cap > 0 else 0]. *)
Definition volume_to_market_cap_value (c : coin) : result Q :=
  m <~ usd "market_cap" usd_market_cap c ;;
  if gt m 0 then
    v <~ usd "volume_24h" usd_volume_24h c ;;
    m' <~ usd "market_cap" usd_market_cap c ;;
    truediv v m'
  else Ok 0.

(** The dict [coin_data] built for one asset, its entries evaluated in
    order. *)
Definition coin_data (c : coin) : result row :=
  i <~ getitem "id" (coin_id c) ;;
  n <~ getitem "name" (coin_name c) ;;
  s <~ getitem "symbol" (coin_symbol c) ;;
  p <~ usd "price" usd_price c ;;
  m <~ usd "market_cap" usd_market_cap c ;;
  v <~ usd "volume_24h" usd_volume_24h c ;;
  c1 <~ usd "percent_change_1h" usd_percent_change_1h c ;;
  c24 <~ usd "percent_change_24h" usd_percent_change_24h c ;;
  c7 <~ usd "percent_change_7d" usd_percent_change_7d c ;;
  r <~ volume_to_market_cap_value c ;;
  Ok {| id := i; name := n; symbol := s; price := p; market_cap := m;
        volume_24h := v; percent_change_1h := c1;
        percent_change_24h := c24; percent_change_7d := c7;
        volume_to_market_cap := r |}.

(** [convert_to_dataframe(data)]: no [try] around the field accesses. *)
Definition convert_to_dataframe (data : option (list coin))
    : result (option dataframe) :=
  if not_ data then Ok None
  else
    processed_data <~ collect coin_data (items data) [] ;;
    Ok (Some processed_data).

(* ================================================================== *)
(** * cryptoBot1.py: analysis *)
(* ================================================================== *)

(** [df is None or df.empty]. *)
Definition empty (df : option dataframe) : bool := not_ df.

(** Column [volatility]. *)
Definition volatility (x : row) : Q :=
  Qabs (percent_change_1h x - percent_change_24h x / 24).

(** Column [trend_consistency]: the lambda applied to each row. *)
Definition trend_consistency (x : row) : Z :=
  if (gt (percent_change_1h x) 0 && gt (percent_change_24h x) 0
      && gt (percent_change_7d x) 0)
     || (lt (percent_change_1h x) 0 && lt (percent_change_24h x) 0
         && lt (percent_change_7d x) 0)
  then 1%Z else 0%Z.

(** Column [market_dominance]:
    [df['market_cap'] / total_market_cap * 100 if total_market_cap > 0 else 0]. *)
Definition market_dominance_column (df : dataframe) : list Q :=
  let total_market_cap := pd.sum (map market_cap df) in
  if gt total_market_cap 0
  then map (fun x => market_cap x / total_market_cap * 100) df
  else map (fun _ => 0) df.

(** The rows each view ranks, before the projection to its columns. *)
Definition top_gainers_rows (df : dataframe) : list row :=
  pd.nlargest 5 percent_change_24h df.

Definition top_losers_rows (df : dataframe) : list row :=
  pd.nsmallest 5 percent_change_24h df.

Definition high_liquidity_rows (df : dataframe) : list row :=
  pd.nlargest 5 volume_to_market_cap df.

Definition high_volatility_rows (df : dataframe) : list row :=
  pd.nlargest 5 volatility df.

Definition strong_trends_rows (df : dataframe) : list row :=
  pd.nlargest 5 market_cap
    (filter (fun x => (trend_consistency x =? 1)%Z) df).

Definition market_dominance_rows (df : dataframe) : list (row * Q) :=
  pd.nlargest 5 snd (combine df (market_dominance_column df)).

Definition analysis (df : dataframe) : views :=
  {| top_gainers :=
       map (fun x => (symbol x, percent_change_24h x)) (top_gainers_rows df);
     top_losers :=
       map (fun x => (symbol x, percent_change_24h x)) (top_losers_rows df);
     high_liquidity :=
       map (fun x => (symbol x, volume_to_market_cap x))
           (high_liquidity_rows df);
     high_volatility :=
       map (fun x => (symbol x, volatility x)) (high_volatility_rows df);
     strong_trends :=
       map (fun x => (symbol x, percent_change_24h x, percent_change_7d x))
           (strong_trends_rows df);
     market_dominance :=
       map (fun x => (symbol (fst x), snd x)) (market_dominance_rows df) |}.

(** [save_analysis_results(analysis_results)]: one insert per entry of each
    view, in the order of the dict. *)
Definition save_analysis_results (results : analysis_results) : M unit :=
  try_except
    (match results with
     | None => ret tt
     | Some v =>
         for_each (top_gainers v)
           (fun r => do (DbAnalysis "top_gainers" (fst r))) ;;;
         for_each (top_losers v)
           (fun r => do (DbAnalysis "top_losers" (fst r))) ;;;
         for_each (high_liquidity v)
           (fun r => do (DbAnalysis "high_liquidity" (fst r))) ;;;
         for_each (high_volatility v)
           (fun r => do (DbAnalysis "high_volatility" (fst r))) ;;;
         for_each (strong_trends v)
           (fun r => do (DbAnalysis "strong_trends" (fst (fst r)))) ;;;
         for_each (market_dominance v)
           (fun r => do (DbAnalysis "market_dominance" (fst r)))
     end ;;;
     do DbCommit)
    (fun _ => log ERROR "Error al guardar análisis").

(** [analyze_market_data(df)]. *)
Definition analyze_market_data (df : option dataframe) : M analysis_results :=
  if empty df then ret None
  else
    let results := Some (analysis (items df)) in
    save_analysis_results results ;;;
    ret results.

(** [check_for_alerts(df, previous_df)]: one message per row whose
    [percent_change_1h] moved by more than 10 in absolute value. *)
Definition alert_message (x : row) : str :=
  let direction :=
    if gt (percent_change_1h x) 0 then lit "subido" else lit "bajado" in
  lit "⚠️ *ALERTA DE MOVIMIENTO*: " ++ name x ++ lit " (" ++ symbol x
  ++ lit ") ha " ++ direction ++ lit " un "
  ++ format plat ".2f" (Qabs (percent_change_1h x))
  ++ lit "% en la última hora.".

Definition check_for_alerts (df previous_df : option dataframe) : list str :=
  if empty df then []
  else
    let big_movers :=
      filter (fun x => gt (Qabs (percent_change_1h x)) 10) (items df) in
    let alerts :=
      fold_left (fun alerts x => alerts ++ [alert_message x]) big_movers [] in
    if negb (empty previous_df) then alerts else alerts.

(* ================================================================== *)
(** * cryptoBot1.py: report renderer *)
(* ================================================================== *)

(** [generate_charts(df, analysis_results)]: the figure saved to a
    timestamped file, [None] when the rendering or the write fails. *)
Definition generate_charts (df : option dataframe)
    (results : analysis_results) : M (option path) :=
  if empty df then ret None
  else
    now <- datetime_now ;;
    let chart_path :=
      {| dir := DATA_DIR cfg;
         file_name := lit "market_overview_"
                      ++ strftime plat "%Y%m%d_%H%M%S" now ++ lit ".png" |} in
    try_except
      (write_file (ChartFile chart_path) chart_path ;;;
       log INFO "Gráficos guardados" ;;;
       ret (Some chart_path))
      (fun _ => log ERROR "Error al generar gráficos" ;;; ret None).

(** [format_market_overview(df)]. *)
Definition format_market_overview (df : option dataframe) : M str :=
  if empty df then ret (lit "No hay datos disponibles")
  else
    t <- datetime_now ;;
    let rows := items df in
    let now := strftime plat "%d-%m-%Y %H:%M:%S" t in
    let total_market_cap := pd.sum (map market_cap rows) / 1000000000 in
    let total_volume := pd.sum (map volume_24h rows) / 1000000000 in
    let avg_change_24h := pd.mean (map percent_change_24h rows) in
    let avg_change_7d := pd.mean (map percent_change_7d rows) in
    let positive_coins :=
      length (filter (fun x => gt (percent_change_24h x) 0) rows) in
    let negative_coins :=
      length (filter (fun x => Qle_bool (percent_change_24h x) 0) rows) in
    ret (lit "🌐 *RESUMEN DEL MERCADO CRYPTO* (" ++ now ++ lit ")" ++ nl ++ nl
         ++ lit "💰 *Capitalización total:* $"
         ++ format plat ".2f" total_market_cap ++ lit "B" ++ nl
         ++ lit "📊 *Volumen 24h:* $"
         ++ format plat ".2f" total_volume ++ lit "B" ++ nl
         ++ lit "📈 *Cambio medio 24h:* "
         ++ format plat ".2f" avg_change_24h ++ lit "%" ++ nl
         ++ lit "📈 *Cambio medio 7d:* "
         ++ format plat ".2f" avg_change_7d ++ lit "%" ++ nl
         ++ lit "🟢 *Monedas en positivo:* "
         ++ str_of_int (Z.of_nat positive_coins) ++ nl
         ++ lit "🔴 *Monedas en negativo:* "
         ++ str_of_int (Z.of_nat negative_coins) ++ nl ++ nl).

(** [format_detailed_analysis(analysis_results)]. *)
Definition format_detailed_analysis (results : analysis_results) : str :=
  match results with
  | None => lit "No hay datos de análisis disponibles"
  | Some v =>
      let message := lit "*ANÁLISIS DETALLADO*" ++ nl ++ nl in
      let message := message ++ lit "📈 *Top Ganadores (24h)*" ++ nl in
      let message :=
        accumulate message
          (fun coin => lit "   - " ++ fst coin ++ lit ": "
                       ++ format plat ".2f" (snd coin) ++ lit "%" ++ nl)
          (top_gainers v) in
      let message := message ++ nl in
      let message := message ++ lit "📉 *Top Perdedores (24h)*" ++ nl in
      let message :=
        accumulate message
          (fun coin => lit "   - " ++ fst coin ++ lit ": "
                       ++ format plat ".2f" (snd coin) ++ lit "%" ++ nl)
          (top_losers v) in
      let message := message ++ nl in
      let message :=
        message ++ lit "💧 *Mayor Liquidez (Volumen/Market Cap)*" ++ nl in
      let message :=
        accumulate message
          (fun coin => lit "   - " ++ fst coin ++ lit ": "
                       ++ format plat ".4f" (snd coin) ++ nl)
          (high_liquidity v) in
      let message := message ++ nl in
      let message := message ++ lit "⚡ *Mayor Volatilidad*" ++ nl in
      let message :=
        accumulate message
          (fun coin => lit "   - " ++ fst coin ++ lit ": "
                       ++ format plat ".4f" (snd coin) ++ nl)
          (high_volatility v) in
      let message := message ++ nl in
      let message := message ++ lit "🧠 *Tendencias Consistentes*" ++ nl in
      let message :=
        accumulate message
          (fun coin =>
             let direction :=
               if gt (snd (fst coin)) 0 then lit "↗️" else lit "↘️" in
             lit "   - " ++ fst (fst coin) ++ lit ": " ++ direction
             ++ lit " 24h: " ++ format plat ".2f" (snd (fst coin))
             ++ lit "%, 7d: " ++ format plat ".2f" (snd coin)
             ++ lit "%" ++ nl)
          (strong_trends v) in
      let message := message ++ nl in
      let message := message ++ lit "👑 *Dominancia de Mercado*" ++ nl in
      accumulate message
        (fun coin => lit "   - " ++ fst coin ++ lit ": "
                     ++ format plat ".2f" (snd coin) ++ lit "%" ++ nl)
        (market_dominance v)
  end.

(** [format_top_coins(df, top_n)]. *)
Definition format_top_coins (df : option dataframe) (top_n : nat) : str :=
  if empty df then lit "No hay datos disponibles"
  else
    let top_coins := pd.nlargest top_n market_cap (items df) in
    let message := lit "💰 *TOP CRIPTOMONEDAS POR CAPITALIZACIÓN*" ++ nl ++ nl in
    accumulate message
      (fun coin =>
         let change_24h := percent_change_24h coin in
         let change_emoji := if gt change_24h 0 then lit "🟢" else lit "🔴" in
         change_emoji ++ lit " *" ++ name coin ++ lit " (" ++ symbol coin
         ++ lit ")*" ++ nl
         ++ lit "   - Precio: $" ++ format plat ",.2f" (price coin) ++ nl
         ++ lit "   - Cap. de Mercado: $"
         ++ format plat ",.0f" (market_cap coin) ++ nl
         ++ lit "   - Cambio 24h: " ++ format plat ".2f" change_24h
         ++ lit "%" ++ nl
         ++ lit "   - Volumen 24h: $"
         ++ format plat ",.0f" (volume_24h coin) ++ nl ++ nl)
      top_coins.

(* ================================================================== *)
(** * cryptoBot1.py: notifier *)
(* ================================================================== *)

(** The chunks of a long text:
    [[message[i:i+4000] for i in range(0, len(message), 4000)]]. *)
Definition chunks (message : str) : list str :=
  map (fun i => slice message i (i + 4000))
      (range 0 (length message) 4000).

(** The branch of [send_message_to_telegram] that sends text only. *)
Definition send_text (message : str) : M unit :=
  if (4000 <? length message)%nat then
    for_each (chunks message) (fun chunk => requests_post (SendMessage chunk))
  else requests_post (SendMessage message).

(** [send_message_to_telegram(message)], without a photo: the function's
    [try] around the text branch.  The call the function makes to itself
    for the rest of a long caption is this one. *)
Definition send_message_to_telegram_text (message : str) : M bool :=
  try_except
    (send_text message ;;;
     log INFO "Mensaje enviado a Telegram correctamente" ;;;
     ret true)
    (fun _ => log ERROR "Error al enviar mensaje a Telegram" ;;; ret false).

(** [photo_path and os.path.exists(photo_path)]. *)
Definition photo_available (photo_path : option path) : M bool :=
  match photo_path with
  | None => ret false
  | Some p => os_path_exists p
  end.

(** [send_message_to_telegram(message, photo_path)]. *)
Definition send_message_to_telegram (message : str)
    (photo_path : option path) : M bool :=
  try_except
    (with_photo <- photo_available photo_path ;;
     match with_photo, photo_path with
     | true, Some p =>
         requests_post (SendPhoto p (slice message 0 1024)) ;;;
         (if (1024 <? length message)%nat
          then _ <- send_message_to_telegram_text
                      (skipn 1024 message) ;; ret tt
          else ret tt)
     | _, _ => send_text message
     end ;;;
     log INFO "Mensaje enviado a Telegram correctamente" ;;;
     ret true)
    (fun _ => log ERROR "Error al enviar mensaje a Telegram" ;;; ret false).

(* ================================================================== *)
(** * cryptoBot1.py: one cycle and the scheduler loop *)
(* ================================================================== *)

(** ["\n".join(alerts)]. *)
Fixpoint join (sep : str) (l : list str) : str :=
  match l with
  | [] => []
  | [x] => x
  | x :: rest => x ++ sep ++ join sep rest
  end.

(** [process_crypto_data()]: one cycle. *)
Definition process_crypto_data : M unit :=
  data <- get_crypto_data ;;
  if not_ data then
    log ERROR "No se pudieron obtener datos. Saltando este ciclo."
  else
    save_raw_data data ;;;
    save_data_to_db data ;;;
    df <- lift (convert_to_dataframe data) ;;
    results <- analyze_market_data df ;;
    chart_path <- generate_charts df results ;;
    market_overview <- format_market_overview df ;;
    let top_coins_msg := format_top_coins df 5 in
    let analysis_msg := format_detailed_analysis results in
    let alerts := check_for_alerts df None in
    let alerts_msg := if truthy alerts then join nl alerts else [] in
    (if truthy alerts_msg
     then _ <- send_message_to_telegram alerts_msg None ;; ret tt
     else ret tt) ;;;
    let full_report :=
      market_overview ++ nl ++ nl ++ top_coins_msg ++ nl ++ nl
      ++ analysis_msg in
    _ <- send_message_to_telegram full_report chart_path ;;
    log INFO "Ciclo de procesamiento completado correctamente".

(** [initialize_database()]: the two [CREATE TABLE IF NOT EXISTS]. *)
Definition initialize_database : M unit :=
  do DbCommit ;;;
  log INFO "Base de datos inicializada correctamente".

(** How an execution of [main] stands after the iterations the model
    follows: still in its loop, or returned after the user's interrupt.
    An exception that leaves [main] is the computation's [Raise]. *)
Inductive run : Type := Running | Stopped.

(** The [while True] of [main], followed for [iterations] turns. *)
Fixpoint main_loop (iterations : nat) : M run :=
  match iterations with
  | O => ret Running
  | S n =>
      fun w =>
        match (log INFO "Esperando hasta la próxima actualización" ;;;
               time_sleep (FETCH_INTERVAL cfg) ;;;
               process_crypto_data) w with
        | (Ok _, w') => main_loop n w'
        | (Raise KeyboardInterrupt, w') =>
            (log INFO "Bot detenido por el usuario" ;;; ret Stopped) w'
        | (Raise _, w') =>
            (log ERROR "Error en el bucle principal" ;;;
             time_sleep 60 ;;;
             main_loop n) w'
        end
  end.

(** [main()]: the database, one cycle at once, then the loop. *)
Definition main (iterations : nat) : M run :=
  log INFO "Iniciando CryptoBot..." ;;;
  initialize_database ;;;
  process_crypto_data ;;;
  main_loop iterations.

End Bot.

(* ================================================================== *)
(** * CryptoBot.py: the first version of the loop *)
(* ================================================================== *)

Module CryptoBot.

Section Script.

Variable plat : platform.

Definition FETCH_INTERVAL : Z := 3600.

(** [get_crypto_data()]: no [try]; [None] on a status other than 200. *)
Definition get_crypto_data : M (option (list coin)) :=
  response <- requests_get 5 ;;
  if (status_code response =? 200)%Z then
    data <- lift (json_data response) ;;
    ret (Some data)
  else ret None.

(** [format_crypto_message(data)]. *)
Fixpoint format_coins (data : list coin) (message : str) : result str :=
  match data with
  | [] => Ok message
  | c :: rest =>
      name <~ getitem "name" (coin_name c) ;;
      symbol <~ getitem "symbol" (coin_symbol c) ;;
      price <~ usd "price" usd_price c ;;
      change_24h <~ usd "percent_change_24h" usd_percent_change_24h c ;;
      volume <~ usd "volume_24h" usd_volume_24h c ;;
      format_coins rest
        (message ++ lit "💰 *" ++ name ++ lit " (" ++ symbol ++ lit ")*" ++ nl
         ++ lit "   - Precio: $" ++ format plat ",.2f" price ++ nl
         ++ lit "   - Cambio 24h: " ++ format plat ".2f" change_24h
         ++ lit "%" ++ nl
         ++ lit "   - Volumen: $" ++ format plat ",.2f" volume ++ nl ++ nl)
  end.

Definition format_crypto_message (data : list coin) : result str :=
  format_coins data (lit "📊 *Top 5 Criptomonedas*" ++ nl ++ nl).

(** [send_message_to_telegram(message)]. *)
Definition send_message_to_telegram (message : str) : M unit :=
  requests_post (SendMessage message).

(** One turn of the [while True] of [main]. *)
Definition cycle : M unit :=
  data <- get_crypto_data ;;
  (if not_ data then
     send_message_to_telegram
       (lit "⚠️ Error obteniendo datos de CoinMarketCap.")
   else
     message <- lift (format_crypto_message (items data)) ;;
     send_message_to_telegram message) ;;;
  time_sleep FETCH_INTERVAL.

(** [main()], followed for [iterations] turns. *)
Fixpoint main (iterations : nat) : M run :=
  match iterations with
  | O => ret Running
  | S n => cycle ;;; main n
  end.

End Script.

End CryptoBot.

(* ================================================================== *)
(** * testcryptodata.py: one cycle, run by hand *)
(* ================================================================== *)

Module testcryptodata.

Section Script.

Variable cfg : config.
Variable plat : platform.

(** [get_crypto_data()]: the text of [cryptoBot1.py], with one [print]
    more. *)
Definition get_crypto_data : M (option (list coin)) :=
  get_crypto_data cfg.

(** [send_message_to_telegram(message)]. *)
Definition send_message_to_telegram (message : str) : M bool :=
  try_except
    (requests_post (SendMessage message) ;;;
     log INFO "Mensaje enviado a Telegram correctamente" ;;;
     ret true)
    (fun _ => log ERROR "Error al enviar mensaje a Telegram" ;;; ret false).

(** The line of one asset in the message of [main]. *)
Definition coin_line (c : coin) : result str :=
  n <~ getitem "name" (coin_name c) ;;
  s <~ getitem "symbol" (coin_symbol c) ;;
  p <~ usd "price" usd_price c ;;
  Ok (n ++ lit " (" ++ s ++ lit "): $" ++ format plat ".2f" p).

(** [main()]. *)
Definition main : M unit :=
  log INFO "Iniciando prueba de CryptoBot en local..." ;;;
  data <- get_crypto_data ;;
  if not_ data then
    _ <- send_message_to_telegram
           (lit "⚠️ No se pudieron obtener datos de CoinMarketCap.") ;;
    ret tt
  else
    lines <- lift (collect coin_line (items data) []) ;;
    _ <- send_message_to_telegram (join nl lines) ;;
    ret tt.

End Script.

End testcryptodata.

(* ================================================================== *)
(** * Vocabulary of the statements *)
(* ================================================================== *)

(** Writes to the store: rows, commits of rows, raw files. *)
Definition is_store_write (e : event) : bool :=
  match e with
  | RawFile _ _ | DbInsert _ | DbAnalysis _ _ => true
  | _ => false
  end.

(** Notifications attempted through the Notifier. *)
Definition is_notification (e : event) : bool :=
  match e with
  | SendMessage _ | SendPhoto _ _ => true
  | _ => false
  end.

(** The texts of the plain-text messages of a trace, in order. *)
Fixpoint sent_texts (t : list event) : list str :=
  match t with
  | [] => []
  | SendMessage text :: rest => text :: sent_texts rest
  | _ :: rest => sent_texts rest
  end.

(** The captions of the image messages of a trace, in order. *)
Fixpoint sent_captions (t : list event) : list str :=
  match t with
  | [] => []
  | SendPhoto _ caption :: rest => caption :: sent_captions rest
  | _ :: rest => sent_captions rest
  end.

(** The rows [trend_consistency] marks with 1: the three changes are all
    positive or all negative. *)
Definition same_sign (x : row) : Prop :=
  (0 < percent_change_1h x /\ 0 < percent_change_24h x
   /\ 0 < percent_change_7d x)
  \/ (percent_change_1h x < 0 /\ percent_change_24h x < 0
      /\ percent_change_7d x < 0).

(** An asset of the payload with every key the bot reads. *)
Definition complete (c : coin) : Prop :=
  exists i n s u p m v c1 c24 c7,
    coin_id c = Some i /\ coin_name c = Some n /\ coin_symbol c = Some s
    /\ coin_quote c = Some (Some u)
    /\ usd_price u = Some p /\ usd_market_cap u = Some m
    /\ usd_volume_24h u = Some v
    /\ usd_percent_change_1h u = Some c1
    /\ usd_percent_change_24h u = Some c24
    /\ usd_percent_change_7d u = Some c7.

(** What the key [volume_to_market_cap] of a row must hold. *)
Definition liquidity_ratio_ok (r : row) : Prop :=
  (0 < market_cap r ->
   volume_to_market_cap r = volume_24h r / market_cap r)
  /\ (market_cap r == 0 -> volume_to_market_cap r = 0).

(** The events a computation adds to the trace of [w]. *)
Definition events_of (A : Type) (m : M A) (w : world) : list event :=
  skipn (length (trace w)) (trace (snd (m w))).

(** A world in which no POST to Telegram raises. *)
Definition telegram_up (w : world) : Prop := Forall (eq true) (telegram w).

(** A world with an empty trace, given what the interactions will meet. *)
Definition initial (answers : list (option response)) (posts : list bool)
    (interrupts : list bool) (writable : bool) : world :=
  {| trace := []; api := answers; telegram := posts; signals := interrupts;
     disk_ok := writable; files := []; clock := 0 |}.

(** A failed fetch: the HTTP client raises (network error, timeout) or
    the response has a status other than 200. *)
Definition fetch_fails (w : world) : Prop :=
  match api w with
  | Some r :: _ => status_code r <> 200%Z
  | _ => True
  end.

(** What [save_data_to_db] leaves for one asset: the insert of its
    values, or the error logged when a value is missing. *)
Definition insert_event (c : coin) : event :=
  match insert_values c with
  | Ok r => DbInsert r
  | Raise _ => Log ERROR "Error al guardar"
  end.

(** A row that holds what the asset of the payload holds. *)
Definition mirrors (c : coin) (r : row) : Prop :=
  coin_id c = Some (id r) /\ coin_name c = Some (name r)
  /\ coin_symbol c = Some (symbol r)
  /\ exists u,
       coin_quote c = Some (Some u)
       /\ usd_price u = Some (price r)
       /\ usd_market_cap u = Some (market_cap r)
       /\ usd_volume_24h u = Some (volume_24h r)
       /\ usd_percent_change_1h u = Some (percent_change_1h r)
       /\ usd_percent_change_24h u = Some (percent_change_24h r)
       /\ usd_percent_change_7d u = Some (percent_change_7d r).

(** A computation all of whose events satisfy [P], in every world. *)
Definition emits_only (A : Type) (P : event -> bool) (m : M A) : Prop :=
  forall w,
    exists evs, trace (snd (m w)) = trace w ++ evs /\ forallb P evs = true.

(** A trace in which every store write comes before every notification. *)
Definition store_then_notify (t : list event) : Prop :=
  exists t1 t2,
    t = t1 ++ t2
    /\ forallb (fun e => negb (is_notification e)) t1 = true
    /\ forallb (fun e => negb (is_store_write e)) t2 = true.

(** A computation whose events, in every world, put every store write
    before every notification. *)
Definition keeps_order (A : Type) (m : M A) : Prop :=
  forall w,
    exists t, trace (snd (m w)) = trace w ++ t /\ store_then_notify t.

(** A world in which the user never interrupts: no pending signal for the
    sleeps to come (interrupts are delivered during [time.sleep]), and no
    answer of the API whose decoding is itself the interrupt. *)
Definition no_interrupt (w : world) : Prop :=
  Forall (eq false) (signals w)
  /\ Forall (fun a => match a with
                      | Some r => json_data r <> Raise KeyboardInterrupt
                      | None => True
                      end) (api w).

(** A computation that, run without interrupt, leaves a world without
    interrupt, returns a value satisfying [Q] or raises an [Exception]. *)
Definition contained (A : Type) (m : M A) (Q : A -> Prop) : Prop :=
  forall w,
    no_interrupt w ->
    match m w with
    | (Ok a, w') => no_interrupt w' /\ Q a
    | (Raise e, w') => no_interrupt w' /\ is_Exception e = true
    end.

(** An event within the limits of the transport: a text of at most 4000
    characters, a caption of at most 1024. *)
Definition within_limits (e : event) : bool :=
  match e with
  | SendMessage text => (length text <=? 4000)%nat
  | SendPhoto _ caption => (length caption <=? 1024)%nat
  | _ => true
  end.

(** A computation that leaves Telegram, the disk's state and the existing
    files as they are, or with more files. *)
Definition steady (A : Type) (m : M A) : Prop :=
  forall w,
    telegram (snd (m w)) = telegram w
    /\ disk_ok (snd (m w)) = disk_ok w
    /\ incl (files w) (files (snd (m w))).

(** The rows written to the table [analysis_results], read from a trace. *)
Fixpoint analysis_rows (t : list event) : list (string * str) :=
  match t with
  | [] => []
  | DbAnalysis analysis_type coin_symbol :: rest =>
      (analysis_type, coin_symbol) :: analysis_rows rest
  | _ :: rest => analysis_rows rest
  end.

(** The rows [save_analysis_results] is asked to write, view by view. *)
Definition rows_of_views (v : views) : list (string * str) :=
  map (fun r => ("top_gainers"%string, fst r)) (top_gainers v)
  ++ map (fun r => ("top_losers"%string, fst r)) (top_losers v)
  ++ map (fun r => ("high_liquidity"%string, fst r)) (high_liquidity v)
  ++ map (fun r => ("high_volatility"%string, fst r)) (high_volatility v)
  ++ map (fun r => ("strong_trends"%string, fst (fst r))) (strong_trends v)
  ++ map (fun r => ("market_dominance"%string, fst r)) (market_dominance v).

(* ================================================================== *)
(** * Sample data *)
(* ================================================================== *)

Module Sample.

(** The defaults of the environment variables. *)
Definition cfg : config :=
  {| FETCH_INTERVAL := 3600; TOP_N_COINS := 100; DATA_DIR := lit "data" |}.

(** A stand-in for the formatting library: the clock reading in decimal,
    a number as its fraction. *)
Definition plat : platform :=
  {| strftime := fun _ t => str_of_int t;
     format := fun _ q =>
       str_of_int (Qnum q) ++ lit "/" ++ str_of_int (Zpos (Qden q)) |}.

Definition usd_of (p m v c1 c24 c7 : Q) : usd_quote :=
  {| usd_price := Some p; usd_market_cap := Some m; usd_volume_24h := Some v;
     usd_percent_change_1h := Some c1; usd_percent_change_24h := Some c24;
     usd_percent_change_7d := Some c7 |}.

Definition asset (i : Z) (n s : string) (u : usd_quote) : coin :=
  {| coin_id := Some i; coin_name := Some (lit n);
     coin_symbol := Some (lit s); coin_quote := Some (Some u) |}.

Definition bitcoin : coin :=
  asset 1 "Bitcoin" "BTC" (usd_of 60000 1200 30 (1#2) 2 5).

Definition ethereum : coin :=
  asset 1027 "Ethereum" "ETH" (usd_of 3000 360 15 (-1#4) (-3) 1).

(** An asset whose [quote.USD] has no [price]. *)
Definition tether_without_price : coin :=
  asset 825 "Tether" "USDT"
    {| usd_price := None; usd_market_cap := Some 100;
       usd_volume_24h := Some 50; usd_percent_change_1h := Some 0;
       usd_percent_change_24h := Some 0; usd_percent_change_7d := Some 0 |}.

Definition payload : list coin := [bitcoin; ethereum].

Definition payload_with_gap : list coin :=
  [bitcoin; tether_without_price; ethereum].

Definition http (status : Z) (data : list coin) : option response :=
  Some {| status_code := status; json_data := Ok data |}.

(** A row with the given symbol, market cap and changes. *)
Definition quote_row (i : Z) (s : string) (m c1 c24 c7 : Q) : row :=
  {| id := i; name := lit s; symbol := lit s; price := 1; market_cap := m;
     volume_24h := 1; percent_change_1h := c1; percent_change_24h := c24;
     percent_change_7d := c7;
     volume_to_market_cap := if gt m 0 then 1 / m else 0 |}.

(** Three rows rising on the three horizons. *)
Definition rising : dataframe :=
  [quote_row 1 "AAA" 10 1 2 3; quote_row 2 "BBB" 30 2 1 1;
   quote_row 3 "CCC" 20 (1#2) 4 2].

(** Eleven rows of pairwise different [percent_change_24h]. *)
Definition eleven : dataframe :=
  map (fun k => quote_row (Z.of_nat k) "X" 1 0 (inject_Z (Z.of_nat k)) 0)
      (seq 0 11).

(** Eleven rows of one and the same [percent_change_24h]. *)
Definition eleven_level : dataframe :=
  map (fun k => quote_row (Z.of_nat k) "X" 1 0 7 0) (seq 0 11).

End Sample.

(* ================================================================== *)
(** * Facts about literals, slices and ranges *)
(* ================================================================== *)

Unset Implicit Arguments.

Example lit_decodes_utf8 : lit "⚠️ ok" = [9888; 65039; 32; 111; 107]%N.
Proof. reflexivity. Qed.

Example str_of_int_examples :
  str_of_int 42 = lit "42" /\ str_of_int (-7) = lit "-7".
Proof. split; reflexivity. Qed.

Example range_examples :
  range 0 9000 4000 = [0; 4000; 8000]%nat
  /\ range 0 8000 4000 = [0; 4000]%nat
  /\ range 0 0 4000 = [].
Proof. repeat split; vm_compute; reflexivity. Qed.

Section SliceFacts.

Variable A : Type.

Lemma firstn_plus (n m : nat) (l : list A) :
  firstn (n + m) l = firstn n l ++ firstn m (skipn n l).
Proof.
  revert l; induction n as [|n IH]; intros l.
  - reflexivity.
  - destruct l as [|x l]; simpl.
    + now rewrite firstn_nil.
    + now rewrite IH.
Qed.

Lemma slice_step (s : list A) (i step : nat) :
  slice s i (i + step) = firstn step (skipn i s).
Proof. unfold slice. now replace (i + step - i)%nat with step by lia. Qed.

Lemma range_from_length (start step count : nat) :
  length (range_from start step count) = count.
Proof.
  revert start; induction count as [|c IH]; intros start; simpl.
  - reflexivity.
  - now rewrite IH.
Qed.

(** The slices taken at the successive starts tile the string. *)
Lemma concat_slices (s : list A) (step count start : nat) :
  concat (map (fun i => slice s i (i + step)) (range_from start step count))
  = firstn (count * step) (skipn start s).
Proof.
  revert start; induction count as [|c IH]; intros start; simpl.
  - reflexivity.
  - rewrite IH, slice_step, firstn_plus, skipn_skipn.
    now replace (step + start)%nat with (start + step)%nat by lia.
Qed.

Lemma slices_bounded (s : list A) (step : nat) (starts : list nat) :
  Forall (fun c => (length c <= step)%nat)
         (map (fun i => slice s i (i + step)) starts).
Proof.
  induction starts as [|i l IH]; simpl; constructor; auto.
  rewrite slice_step. apply firstn_le_length.
Qed.

Lemma ceil_covers (len step : nat) :
  (0 < step)%nat -> (len <= (len + (step - 1)) / step * step)%nat.
Proof.
  intros Hs.
  pose proof (Nat.div_mod_eq (len + (step - 1)) step) as E.
  pose proof (Nat.mod_upper_bound (len + (step - 1)) step) as U.
  nia.
Qed.

(** The list comprehension over [range(0, len(s), step)]: consecutive
    pieces of at most [step] elements whose concatenation is [s]. *)
Lemma comprehension_tiles (s : list A) (step : nat) :
  (0 < step)%nat ->
  let pieces :=
    map (fun i => slice s i (i + step)) (range 0 (length s) step) in
  concat pieces = s
  /\ Forall (fun c => (length c <= step)%nat) pieces
  /\ length pieces = ((length s + (step - 1)) / step)%nat.
Proof.
  intros Hs pieces; subst pieces; unfold range.
  rewrite Nat.sub_0_r. repeat split.
  - rewrite concat_slices. simpl skipn.
    apply firstn_all2, ceil_covers; assumption.
  - apply slices_bounded.
  - now rewrite length_map, range_from_length.
Qed.

End SliceFacts.

(* ================================================================== *)
(** * Facts about traces *)
(* ================================================================== *)

Lemma skipn_app_exact (A : Type) (l x : list A) :
  skipn (length l) (l ++ x) = x.
Proof. induction l as [|a l IH]; simpl; auto. Qed.

Lemma sent_texts_app (t u : list event) :
  sent_texts (t ++ u) = sent_texts t ++ sent_texts u.
Proof.
  induction t as [|e t IH]; simpl; auto.
  destruct e; simpl; auto. now rewrite IH.
Qed.

Lemma sent_texts_messages (l : list str) :
  sent_texts (map SendMessage l) = l.
Proof. induction l as [|x l IH]; simpl; auto. now rewrite IH. Qed.

Lemma sent_captions_app (t u : list event) :
  sent_captions (t ++ u) = sent_captions t ++ sent_captions u.
Proof.
  induction t as [|e t IH]; simpl; auto.
  destruct e; simpl; auto. now rewrite IH.
Qed.

Lemma sent_captions_messages (l : list str) :
  sent_captions (map SendMessage l) = [].
Proof. induction l as [|x l IH]; simpl; auto. Qed.

(** A POST in a world where Telegram answers: it returns, and leaves one
    event. *)
Lemma requests_post_up (request : event) (w : world) :
  telegram_up w ->
  exists w',
    requests_post request w = (Ok tt, w')
    /\ trace w' = trace w ++ [request]
    /\ telegram_up w'
    /\ files w' = files w.
Proof.
  unfold telegram_up, requests_post; intros Hup.
  destruct (telegram w) as [|[|] rest] eqn:E.
  - eexists; split; [reflexivity|]. simpl. repeat split; auto.
  - eexists; split; [reflexivity|]. simpl.
    repeat split; auto. now inversion Hup.
  - inversion Hup; discriminate.
Qed.

(** The loop over the chunks when Telegram answers: every chunk is sent, in
    order. *)
Lemma post_each_up (l : list str) (w : world) :
  telegram_up w ->
  exists w',
    for_each l (fun chunk => requests_post (SendMessage chunk)) w = (Ok tt, w')
    /\ trace w' = trace w ++ map SendMessage l
    /\ telegram_up w'
    /\ files w' = files w.
Proof.
  revert w; induction l as [|x l IH]; intros w Hup; simpl.
  - exists w. unfold ret. rewrite app_nil_r. auto.
  - destruct (requests_post_up (SendMessage x) w Hup) as (w1 & E1 & T1 & U1 & F1).
    destruct (IH w1 U1) as (w2 & E2 & T2 & U2 & F2).
    exists w2. unfold bind. rewrite E1, E2, T2, T1, <- app_assoc.
    repeat split; auto. congruence.
Qed.

(** The loop over the chunks in any world: it returns or meets the HTTP
    client's exception, and what is sent is a prefix of the chunks, in
    order. *)
Lemma post_each_prefix (l : list str) (w : world) :
  exists k w',
    (for_each l (fun chunk => requests_post (SendMessage chunk)) w = (Ok tt, w')
     \/ for_each l (fun chunk => requests_post (SendMessage chunk)) w
        = (Raise RequestException, w'))
    /\ trace w' = trace w ++ map SendMessage (firstn k l).
Proof.
  revert w; induction l as [|x l IH]; intros w; simpl.
  - exists 0%nat, w. split; [now left|]. simpl. now rewrite app_nil_r.
  - unfold bind, requests_post.
    destruct (telegram w) as [|[|] rest] eqn:E.
    + match goal with |- context [for_each l ?f ?w1] =>
        destruct (IH w1) as (k & w' & Hr & Ht) end.
      exists (S k), w'. split; [exact Hr|].
      rewrite Ht. simpl. now rewrite <- app_assoc.
    + match goal with |- context [for_each l ?f ?w1] =>
        destruct (IH w1) as (k & w' & Hr & Ht) end.
      exists (S k), w'. split; [exact Hr|].
      rewrite Ht. simpl. now rewrite <- app_assoc.
    + eexists 1%nat, _. split; [right; reflexivity|]. reflexivity.
Qed.

(** Without a photo, [send_message_to_telegram] is its text branch: this is
    the call the function makes to itself for the rest of a caption. *)
Lemma send_without_photo (message : str) :
  send_message_to_telegram message None = send_message_to_telegram_text message.
Proof. reflexivity. Qed.

(** The text branch in any world: a prefix of the chunks is sent, in order,
    then the outcome is logged. *)
Lemma send_long_text_trace (message : str) (w : world) :
  (4000 < length message)%nat ->
  exists k lvl site,
    trace (snd (send_message_to_telegram_text message w))
    = trace w ++ map SendMessage (firstn k (chunks message)) ++ [Log lvl site].
Proof.
  intros Hlen. apply Nat.ltb_lt in Hlen.
  unfold send_message_to_telegram_text, try_except, bind, send_text.
  rewrite Hlen.
  destruct (post_each_prefix (chunks message) w) as (k & w' & [Hr|Hr] & Ht);
    rewrite Hr; simpl; rewrite Ht, <- app_assoc; eauto.
Qed.

(** The text branch when Telegram answers: every chunk is sent and the
    function returns [True]. *)
Lemma send_long_text_up (message : str) (w : world) :
  (4000 < length message)%nat ->
  telegram_up w ->
  exists w',
    send_message_to_telegram_text message w = (Ok true, w')
    /\ trace w'
       = trace w ++ map SendMessage (chunks message)
         ++ [Log INFO "Mensaje enviado a Telegram correctamente"].
Proof.
  intros Hlen Hup. apply Nat.ltb_lt in Hlen.
  unfold send_message_to_telegram_text, try_except, bind, send_text.
  rewrite Hlen.
  destruct (post_each_up (chunks message) w Hup) as (w1 & E1 & T1 & _ & _).
  rewrite E1. simpl. eexists; split; [reflexivity|].
  simpl. now rewrite T1, <- app_assoc.
Qed.

(** The text branch on a message within the limit, when Telegram answers:
    one message, the text itself. *)
Lemma send_short_text_up (message : str) (w : world) :
  (length message <= 4000)%nat ->
  telegram_up w ->
  exists w',
    send_message_to_telegram_text message w = (Ok true, w')
    /\ trace w'
       = trace w ++ [SendMessage message]
         ++ [Log INFO "Mensaje enviado a Telegram correctamente"].
Proof.
  intros Hlen Hup. apply Nat.ltb_ge in Hlen.
  unfold send_message_to_telegram_text, try_except, bind, send_text.
  rewrite Hlen.
  destruct (requests_post_up (SendMessage message) w Hup)
    as (w1 & E1 & T1 & _ & _).
  rewrite E1. simpl. eexists; split; [reflexivity|].
  simpl. now rewrite T1, <- app_assoc.
Qed.

Lemma chunks_tile (message : str) :
  concat (chunks message) = message
  /\ Forall (fun chunk => (length chunk <= 4000)%nat) (chunks message)
  /\ length (chunks message) = ((length message + 3999) / 4000)%nat.
Proof.
  assert (H : (0 < 4000)%nat) by (apply Nat.ltb_lt; reflexivity).
  destruct (comprehension_tiles _ message 4000%nat H) as (Hc & Hb & Hn).
  unfold chunks. repeat split; auto.
Qed.

(** C2. A plain-text message (no image) of more than 4000 characters is
    split by [send_message_to_telegram] into consecutive chunks of at most
    4000 characters whose concatenation is the message; the chunks are sent
    as separate messages in their order (all of them when no request to
    Telegram raises, a prefix of them otherwise); a message of 9000
    characters gives exactly 3 chunks. *)
Theorem C2_long_text_is_sent_in_chunks :
  forall (message : str) (w : world),
    (4000 < length message)%nat ->
    let sent :=
      sent_texts (events_of (send_message_to_telegram message None) w) in
    (exists k, sent = firstn k (chunks message))
    /\ (telegram_up w ->
        sent = chunks message
        /\ fst (send_message_to_telegram message None w) = Ok true)
    /\ Forall (fun chunk => (length chunk <= 4000)%nat) (chunks message)
    /\ concat (chunks message) = message
    /\ (length message = 9000%nat -> length (chunks message) = 3%nat).
Proof.
  intros message w Hlen sent; subst sent.
  rewrite send_without_photo. unfold events_of.
  destruct (chunks_tile message) as (Hc & Hb & Hn).
  repeat split; auto.
  - destruct (send_long_text_trace message w Hlen) as (k & lvl & site & Ht).
    exists k. rewrite Ht, skipn_app_exact, sent_texts_app.
    simpl. now rewrite sent_texts_messages, app_nil_r.
  - destruct (send_long_text_up message w Hlen H) as (w' & E & Ht).
    rewrite E. simpl. rewrite Ht, skipn_app_exact, sent_texts_app.
    simpl. now rewrite sent_texts_messages, app_nil_r.
  - destruct (send_long_text_up message w Hlen H) as (w' & E & Ht). now rewrite E.
  - intros H9. rewrite Hn, H9. vm_compute. reflexivity.
Qed.

Lemma C2_long_text_witness :
  (4000 < length (repeat 97%N 9000))%nat
  /\ length (chunks (repeat 97%N 9000)) = 3%nat.
Proof.
  assert (H : (4000 < length (repeat 97%N 9000))%nat)
    by (apply Nat.ltb_lt; vm_compute; reflexivity).
  split; [exact H|].
  apply (C2_long_text_is_sent_in_chunks (repeat 97%N 9000)
           (initial [] [] [] true) H).
  apply repeat_length.
Defined.

Lemma path_eqb_refl (p : path) : path_eqb p p = true.
Proof.
  unfold path_eqb, str_eqb.
  destruct (list_eq_dec N.eq_dec (dir p) (dir p)); [|congruence].
  destruct (list_eq_dec N.eq_dec (file_name p) (file_name p));
    [reflexivity | congruence].
Qed.

Lemma exists_on_disk (p : path) (w : world) :
  In p (files w) -> existsb (path_eqb p) (files w) = true.
Proof.
  intros H. apply existsb_exists. exists p. split; [exact H|].
  apply path_eqb_refl.
Qed.

(** The text branch when Telegram answers, whatever the length. *)
Lemma send_text_up (message : str) (w : world) :
  telegram_up w ->
  exists w',
    send_message_to_telegram_text message w = (Ok true, w')
    /\ trace w'
       = trace w
         ++ map SendMessage
              (if (4000 <? length message)%nat then chunks message
               else [message])
         ++ [Log INFO "Mensaje enviado a Telegram correctamente"].
Proof.
  intros Hup. destruct (4000 <? length message)%nat eqn:E.
  - apply Nat.ltb_lt in E. now apply send_long_text_up.
  - apply Nat.ltb_ge in E. now apply send_short_text_up.
Qed.

(** An image-send when the photo is on disk and Telegram answers: the
    photo with the first 1024 characters, then the rest through the text
    branch. *)
Lemma send_photo_up (message : str) (p : path) (w : world) :
  In p (files w) ->
  (1024 < length message)%nat ->
  telegram_up w ->
  events_of (send_message_to_telegram message (Some p)) w
  = [SendPhoto p (firstn 1024 message)]
    ++ map SendMessage
         (if (4000 <? length (skipn 1024 message))%nat
          then chunks (skipn 1024 message)
          else [skipn 1024 message])
    ++ [Log INFO "Mensaje enviado a Telegram correctamente";
        Log INFO "Mensaje enviado a Telegram correctamente"].
Proof.
  intros Hp Hlen Hup. apply Nat.ltb_lt in Hlen.
  unfold events_of, send_message_to_telegram, try_except, bind,
    photo_available, os_path_exists.
  rewrite (exists_on_disk p w Hp).
  destruct (requests_post_up (SendPhoto p (slice message 0 1024)) w Hup)
    as (w1 & E1 & T1 & U1 & _).
  rewrite E1, Hlen.
  destruct (send_text_up (skipn 1024 message) w1 U1) as (w2 & E2 & T2).
  rewrite E2. simpl. rewrite T2, T1.
  unfold slice. rewrite Nat.sub_0_r. simpl skipn at 1.
  repeat rewrite <- app_assoc. rewrite skipn_app_exact. reflexivity.
Qed.

(** C3. An image-send whose message exceeds 1024 characters sends the
    photo with the first 1024 characters as caption and resubmits the
    remaining characters through the plain-text path, so that the caption
    followed by the text sent is the message, nothing lost and nothing
    repeated; a message of 1500 characters gives a caption of 1024
    characters and one follow-up text of 476. *)
Theorem C3_long_caption_is_split :
  forall (message : str) (p : path) (w : world),
    In p (files w) ->
    (1024 < length message)%nat ->
    telegram_up w ->
    let t := events_of (send_message_to_telegram message (Some p)) w in
    sent_captions t = [firstn 1024 message]
    /\ concat (sent_texts t) = skipn 1024 message
    /\ firstn 1024 message ++ concat (sent_texts t) = message
    /\ ((length message <= 5024)%nat ->
        filter is_notification t
        = [SendPhoto p (firstn 1024 message);
           SendMessage (skipn 1024 message)])
    /\ (length message = 1500%nat ->
        filter is_notification t
        = [SendPhoto p (firstn 1024 message);
           SendMessage (skipn 1024 message)]
        /\ length (firstn 1024 message) = 1024%nat
        /\ length (skipn 1024 message) = 476%nat).
Proof.
  intros message p w Hp Hlen Hup t; subst t.
  rewrite (send_photo_up message p w Hp Hlen Hup).
  assert (Hshort : (length message <= 5024)%nat ->
                   (4000 <? length (skipn 1024 message))%nat = false).
  { intros H. apply Nat.ltb_ge. rewrite length_skipn.
    apply Nat.le_sub_le_add_r. exact H. }
  assert (Htexts :
    sent_texts
      ([SendPhoto p (firstn 1024 message)]
       ++ map SendMessage
            (if (4000 <? length (skipn 1024 message))%nat
             then chunks (skipn 1024 message) else [skipn 1024 message])
       ++ [Log INFO "Mensaje enviado a Telegram correctamente";
           Log INFO "Mensaje enviado a Telegram correctamente"])
    = if (4000 <? length (skipn 1024 message))%nat
      then chunks (skipn 1024 message) else [skipn 1024 message]).
  { simpl. rewrite sent_texts_app, sent_texts_messages. simpl.
    apply app_nil_r. }
  assert (Hrest : concat (if (4000 <? length (skipn 1024 message))%nat
                          then chunks (skipn 1024 message)
                          else [skipn 1024 message])
                  = skipn 1024 message).
  { destruct (4000 <? length (skipn 1024 message))%nat.
    - apply chunks_tile.
    - simpl. apply app_nil_r. }
  rewrite Htexts.
  split; [|split; [|split; [|split]]].
  - simpl. rewrite sent_captions_app, sent_captions_messages. reflexivity.
  - exact Hrest.
  - pose proof (firstn_skipn 1024 message) as F.
    rewrite <- Hrest in F at 1. exact F.
  - intros H. rewrite (Hshort H). reflexivity.
  - intros H.
    assert (H' : (length message <= 5024)%nat)
      by (rewrite H; apply Nat.leb_le; vm_compute; reflexivity).
    rewrite (Hshort H'). split; [reflexivity|].
    rewrite length_firstn, length_skipn, H. split; vm_compute; reflexivity.
Qed.

Lemma C3_long_caption_witness :
  length (firstn 1024 (repeat 97%N 1500)) = 1024%nat
  /\ length (skipn 1024 (repeat 97%N 1500)) = 476%nat.
Proof.
  apply (C3_long_caption_is_split (repeat 97%N 1500)
           {| dir := lit "data"; file_name := lit "chart.png" |}
           {| trace := []; api := []; telegram := []; signals := [];
              disk_ok := true;
              files := [{| dir := lit "data"; file_name := lit "chart.png" |}];
              clock := 0 |}).
  - left; reflexivity.
  - apply Nat.ltb_lt; vm_compute; reflexivity.
  - constructor.
  - apply repeat_length.
Defined.

(* ================================================================== *)
(** * Facts about the rankings *)
(* ================================================================== *)

Lemma in_firstn (A : Type) (n : nat) (l : list A) (x : A) :
  In x (firstn n l) -> In x l.
Proof.
  intros H. rewrite <- (firstn_skipn n l). apply in_or_app. now left.
Qed.

Lemma in_skipn (A : Type) (n : nat) (l : list A) (x : A) :
  In x (skipn n l) -> In x l.
Proof.
  intros H. rewrite <- (firstn_skipn n l). apply in_or_app. now right.
Qed.

Section SortFacts.

Variable A : Type.
Variable before : A -> A -> bool.
Hypothesis before_total : forall a b, before a b = true \/ before b a = true.
Hypothesis before_trans :
  forall a b c, before a b = true -> before b c = true -> before a c = true.

Let R (a b : A) : Prop := before a b = true.

Lemma insert_perm (x : A) (l : list A) :
  Permutation (pd.insert before x l) (x :: l).
Proof.
  induction l as [|y l IH]; simpl.
  - apply Permutation_refl.
  - destruct (before x y).
    + apply Permutation_refl.
    + eapply perm_trans; [apply perm_skip, IH | apply perm_swap].
Qed.

Lemma sort_perm (l : list A) : Permutation (pd.sort before l) l.
Proof.
  induction l as [|x l IH]; simpl.
  - apply perm_nil.
  - eapply perm_trans; [apply insert_perm | apply perm_skip, IH].
Qed.

Lemma insert_sorted (x : A) (l : list A) :
  StronglySorted R l -> StronglySorted R (pd.insert before x l).
Proof.
  induction 1 as [|y l Hs IH Hy]; simpl.
  - constructor; constructor.
  - destruct (before x y) eqn:E.
    + constructor; [constructor; assumption|].
      constructor; [exact E|].
      eapply Forall_impl; [|exact Hy].
      intros z Hz. exact (before_trans x y z E Hz).
    + constructor; [exact IH|].
      assert (Hall : Forall (R y) (x :: l)).
      { constructor; [|exact Hy].
        destruct (before_total x y) as [H|H]; [congruence | exact H]. }
      rewrite Forall_forall in *. intros z Hz. apply Hall.
      eapply Permutation_in; [apply insert_perm | exact Hz].
Qed.

Lemma sort_sorted (l : list A) : StronglySorted R (pd.sort before l).
Proof.
  induction l as [|x l IH]; simpl.
  - constructor.
  - apply insert_sorted, IH.
Qed.

Lemma sorted_app_le (l1 l2 : list A) :
  StronglySorted R (l1 ++ l2) ->
  forall a b, In a l1 -> In b l2 -> R a b.
Proof.
  induction l1 as [|x l1 IH]; simpl; intros Hs a b Ha Hb.
  - contradiction.
  - inversion Hs as [|? ? Hs' Hx]; subst.
    destruct Ha as [<-|Ha].
    + rewrite Forall_forall in Hx. apply Hx, in_or_app. now right.
    + now apply IH.
Qed.

Lemma sorted_firstn (n : nat) (l : list A) :
  StronglySorted R l -> StronglySorted R (firstn n l).
Proof.
  revert l; induction n as [|n IH]; intros l Hs; simpl.
  - constructor.
  - destruct l as [|x l]; [constructor|].
    inversion Hs as [|? ? Hs' Hx]; subst.
    constructor; [now apply IH|].
    rewrite Forall_forall in *. intros z Hz.
    apply Hx. eapply in_firstn. exact Hz.
Qed.

(** The first [n] of the sorted rows: [min n (len)] of them, in order,
    each of them before each of the rows left out. *)
Lemma top_n_spec (n : nat) (l : list A) :
  let top := firstn n (pd.sort before l) in
  let rest := skipn n (pd.sort before l) in
  length top = Nat.min n (length l)
  /\ Permutation l (top ++ rest)
  /\ StronglySorted R top
  /\ (forall a b, In a top -> In b rest -> R a b)
  /\ (rest <> [] -> length top = n).
Proof.
  intros top rest; subst top rest.
  pose proof (sort_perm l) as Hp. pose proof (sort_sorted l) as Hs.
  repeat split.
  - rewrite length_firstn. now rewrite (@Permutation_length _ _ _ Hp).
  - rewrite firstn_skipn. now apply Permutation_sym.
  - now apply sorted_firstn.
  - apply sorted_app_le. now rewrite firstn_skipn.
  - intros Hne. apply firstn_length_le.
    destruct (Nat.le_gt_cases n (length (pd.sort before l))) as [H|H];
      [exact H|].
    exfalso. apply Hne, skipn_all2. now apply Nat.lt_le_incl.
Qed.

End SortFacts.

Lemma StronglySorted_impl (A : Type) (R R' : A -> A -> Prop) (l : list A) :
  (forall a b, R a b -> R' a b) ->
  StronglySorted R l -> StronglySorted R' l.
Proof.
  intros Himp; induction 1 as [|x l Hs IH Hx]; constructor; auto.
  eapply Forall_impl; [|exact Hx]. intros; now apply Himp.
Qed.

Lemma Qle_bool_total (a b : Q) : Qle_bool a b = true \/ Qle_bool b a = true.
Proof.
  destruct (Qlt_le_dec b a) as [H|H].
  - right. apply Qle_bool_iff. now apply Qlt_le_weak.
  - left. now apply Qle_bool_iff.
Qed.

Lemma Qle_bool_trans (a b c : Q) :
  Qle_bool a b = true -> Qle_bool b c = true -> Qle_bool a c = true.
Proof.
  rewrite !Qle_bool_iff. apply Qle_trans.
Qed.

Section RankingFacts.

Variable A : Type.
Variable column : A -> Q.

(** [nlargest]: [min n (len)] rows in descending order of [column], none
    of them smaller than a row left out. *)
Lemma nlargest_spec (n : nat) (l : list A) :
  let top := pd.nlargest n column l in
  length top = Nat.min n (length l)
  /\ StronglySorted (fun a b => column b <= column a) top
  /\ exists rest,
       Permutation l (top ++ rest)
       /\ (forall a b, In a top -> In b rest -> column b <= column a)
       /\ (rest <> [] -> length top = n).
Proof.
  set (before := fun a b : A => Qle_bool (column b) (column a)).
  assert (Ht : forall a b, before a b = true \/ before b a = true)
    by (intros; apply Qle_bool_total).
  assert (Hr : forall a b c,
             before a b = true -> before b c = true -> before a c = true)
    by (unfold before; intros a b c H1 H2; eapply Qle_bool_trans; eauto).
  destruct (top_n_spec A before Ht Hr n l) as (Hl & Hp & Hs & Hle & Hn).
  unfold pd.nlargest. fold before. repeat split.
  - exact Hl.
  - eapply StronglySorted_impl; [|exact Hs].
    intros a b H. now apply Qle_bool_iff.
  - exists (skipn n (pd.sort before l)). repeat split; auto.
    intros a b Ha Hb. apply Qle_bool_iff. now apply Hle.
Qed.

(** [nsmallest]: the same in ascending order. *)
Lemma nsmallest_spec (n : nat) (l : list A) :
  let bottom := pd.nsmallest n column l in
  length bottom = Nat.min n (length l)
  /\ StronglySorted (fun a b => column a <= column b) bottom
  /\ exists rest,
       Permutation l (bottom ++ rest)
       /\ (forall a b, In a bottom -> In b rest -> column a <= column b)
       /\ (rest <> [] -> length bottom = n).
Proof.
  set (before := fun a b : A => Qle_bool (column a) (column b)).
  assert (Ht : forall a b, before a b = true \/ before b a = true)
    by (intros; apply Qle_bool_total).
  assert (Hr : forall a b c,
             before a b = true -> before b c = true -> before a c = true)
    by (unfold before; intros a b c H1 H2; eapply Qle_bool_trans; eauto).
  destruct (top_n_spec A before Ht Hr n l) as (Hl & Hp & Hs & Hle & Hn).
  unfold pd.nsmallest. fold before. repeat split.
  - exact Hl.
  - eapply StronglySorted_impl; [|exact Hs].
    intros a b H. now apply Qle_bool_iff.
  - exists (skipn n (pd.sort before l)). repeat split; auto.
    intros a b Ha Hb. apply Qle_bool_iff. now apply Hle.
Qed.

Lemma nlargest_incl (n : nat) (l : list A) (x : A) :
  In x (pd.nlargest n column l) -> In x l.
Proof.
  intros H. apply in_firstn in H.
  eapply Permutation_in; [apply sort_perm | exact H].
Qed.

End RankingFacts.


Lemma gt_iff (a b : Q) : gt a b = true <-> b < a.
Proof.
  unfold gt. rewrite negb_true_iff. split; intros H.
  - apply Qnot_le_lt. intros Hle. apply Qle_bool_iff in Hle. congruence.
  - destruct (Qle_bool a b) eqn:E; [|reflexivity].
    apply Qle_bool_iff in E. exfalso. exact (Qlt_not_le _ _ H E).
Qed.

Lemma lt_iff (a b : Q) : lt a b = true <-> a < b.
Proof. unfold lt. apply (gt_iff b a). Qed.

Lemma gt_false_iff (a b : Q) : gt a b = false <-> a <= b.
Proof.
  unfold gt. rewrite negb_false_iff. apply Qle_bool_iff.
Qed.

Section CountingFacts.

Variable A : Type.
Variable column : A -> Q.

Lemma filter_length_perm (f : A -> bool) (l l' : list A) :
  Permutation l l' -> length (filter f l) = length (filter f l').
Proof.
  induction 1 as [|x l l' _ IH|x y l|l l' l'' _ IH1 _ IH2]; simpl.
  - reflexivity.
  - destruct (f x); simpl; congruence.
  - destruct (f x), (f y); reflexivity.
  - congruence.
Qed.

Lemma filter_none (f : A -> bool) (l : list A) :
  (forall b, In b l -> f b = false) -> filter f l = [].
Proof.
  induction l as [|a l IH]; simpl; intros H.
  - reflexivity.
  - rewrite (H a (or_introl eq_refl)). apply IH. intros b Hb. apply H. now right.
Qed.

Lemma filter_length_lt (f : A -> bool) (l : list A) (x : A) :
  In x l -> f x = false -> (length (filter f l) < length l)%nat.
Proof.
  induction l as [|a l IH]; simpl; intros Hin Hx.
  - contradiction.
  - destruct Hin as [->|Hin].
    + rewrite Hx. apply Nat.lt_succ_r, filter_length_le.
    + specialize (IH Hin Hx). destruct (f a); simpl; lia.
Qed.

(** Every row is above, below or level with a value [v]. *)
Lemma three_way (v : Q) (l : list A) :
  length l
  = (length (filter (fun b => gt (column b) v) l)
     + length (filter (fun b => lt (column b) v) l)
     + length (filter (fun b => Qeq_bool (column b) v) l))%nat.
Proof.
  induction l as [|a l IH]; simpl; [reflexivity|].
  destruct (Q_dec (column a) v) as [[H|H]|H].
  - assert (E1 : gt (column a) v = false)
      by (apply gt_false_iff; now apply Qlt_le_weak).
    assert (E2 : lt (column a) v = true) by now apply lt_iff.
    assert (E3 : Qeq_bool (column a) v = false).
    { destruct (Qeq_bool (column a) v) eqn:E; [|reflexivity].
      apply Qeq_bool_iff in E. exfalso. exact (Qlt_not_eq _ _ H E). }
    rewrite E1, E2, E3. simpl. lia.
  - assert (E1 : gt (column a) v = true) by now apply gt_iff.
    assert (E2 : lt (column a) v = false)
      by (apply (gt_false_iff v (column a)); now apply Qlt_le_weak).
    assert (E3 : Qeq_bool (column a) v = false).
    { destruct (Qeq_bool (column a) v) eqn:E; [|reflexivity].
      apply Qeq_bool_iff in E. exfalso.
      apply (Qlt_not_eq _ _ H). now symmetry. }
    rewrite E1, E2, E3. simpl. lia.
  - assert (E1 : gt (column a) v = false)
      by (apply gt_false_iff; rewrite H; apply Qle_refl).
    assert (E2 : lt (column a) v = false)
      by (apply (gt_false_iff v (column a)); rewrite H; apply Qle_refl).
    assert (E3 : Qeq_bool (column a) v = true) by now apply Qeq_bool_iff.
    rewrite E1, E2, E3. simpl. lia.
Qed.

(** Among rows of pairwise different values, at most one has value [v]. *)
Lemma level_at_most_one (v : Q) (l : list A) :
  ForallOrdPairs (fun a b => ~ column a == column b) l ->
  (length (filter (fun b => Qeq_bool (column b) v) l) <= 1)%nat.
Proof.
  induction 1 as [|a l Ha _ IH]; simpl; [lia|].
  destruct (Qeq_bool (column a) v) eqn:E; [|exact IH].
  apply Qeq_bool_iff in E. rewrite filter_none; [simpl; lia|].
  intros b Hb. rewrite Forall_forall in Ha.
  destruct (Qeq_bool (column b) v) eqn:Eb; [|reflexivity].
  apply Qeq_bool_iff in Eb. exfalso. apply (Ha b Hb).
  rewrite E, Eb. reflexivity.
Qed.

(** A row among the [n] largest has fewer than [n] rows above it. *)
Lemma above_a_top_row (n : nat) (l : list A) (x : A) :
  In x (pd.nlargest n column l) ->
  (length (filter (fun b => gt (column b) (column x)) l) < n)%nat.
Proof.
  intros Hx.
  destruct (nlargest_spec A column n l) as (Hl & _ & rest & Hp & Hle & _).
  rewrite (filter_length_perm _ _ _ Hp), filter_app, length_app.
  rewrite (filter_none _ rest).
  - simpl. rewrite Nat.add_0_r.
    eapply Nat.lt_le_trans.
    + apply (filter_length_lt _ _ x Hx). apply gt_false_iff, Qle_refl.
    + rewrite Hl. apply Nat.le_min_l.
  - intros b Hb. apply gt_false_iff. now apply Hle.
Qed.

(** A row among the [n] smallest has fewer than [n] rows below it. *)
Lemma below_a_bottom_row (n : nat) (l : list A) (x : A) :
  In x (pd.nsmallest n column l) ->
  (length (filter (fun b => lt (column b) (column x)) l) < n)%nat.
Proof.
  intros Hx.
  destruct (nsmallest_spec A column n l) as (Hl & _ & rest & Hp & Hle & _).
  rewrite (filter_length_perm _ _ _ Hp), filter_app, length_app.
  rewrite (filter_none _ rest).
  - simpl. rewrite Nat.add_0_r.
    eapply Nat.lt_le_trans.
    + apply (filter_length_lt _ _ x Hx).
      apply (gt_false_iff (column x) (column x)), Qle_refl.
    + rewrite Hl. apply Nat.le_min_l.
  - intros b Hb. apply (gt_false_iff (column x) (column b)). now apply Hle.
Qed.

(** With [2 n] rows or more, of pairwise different values, no row is both
    among the [n] largest and among the [n] smallest. *)
Lemma extremes_disjoint (n : nat) (l : list A) (x : A) :
  (2 * n <= length l)%nat ->
  ForallOrdPairs (fun a b => ~ column a == column b) l ->
  In x (pd.nlargest n column l) ->
  ~ In x (pd.nsmallest n column l).
Proof.
  intros Hlen Hd Hg Hs.
  pose proof (above_a_top_row n l x Hg) as H1.
  pose proof (below_a_bottom_row n l x Hs) as H2.
  pose proof (level_at_most_one (column x) l Hd) as H3.
  pose proof (three_way (column x) l) as H4.
  lia.
Qed.

End CountingFacts.

(** X22. With 10 rows or more and no two rows of the same
    [percent_change_24h], the views [top_gainers] and [top_losers] share no
    row. *)
Lemma gainers_losers_disjoint (df : dataframe) (x : row) :
  (10 <= length df)%nat ->
  ForallOrdPairs
    (fun a b => ~ percent_change_24h a == percent_change_24h b) df ->
  In x (top_gainers_rows df) -> ~ In x (top_losers_rows df).
Proof.
  intros Hlen. apply extremes_disjoint. exact Hlen.
Qed.

Lemma trend_consistency_spec (x : row) :
  (trend_consistency x =? 1)%Z = true <-> same_sign x.
Proof.
  unfold trend_consistency, same_sign.
  destruct (gt (percent_change_1h x) 0) eqn:G1;
    destruct (gt (percent_change_24h x) 0) eqn:G24;
    destruct (gt (percent_change_7d x) 0) eqn:G7;
    destruct (lt (percent_change_1h x) 0) eqn:L1;
    destruct (lt (percent_change_24h x) 0) eqn:L24;
    destruct (lt (percent_change_7d x) 0) eqn:L7;
    simpl;
    repeat match goal with
      | H : gt _ _ = true |- _ => apply gt_iff in H
      | H : lt _ _ = true |- _ => apply lt_iff in H
      | H : gt _ _ = false |- _ => apply gt_false_iff in H
      | H : lt _ _ = false |- _ => apply (gt_false_iff 0 _) in H
      end;
    split; intros H; try discriminate; try reflexivity; auto;
    exfalso;
    destruct H as [(H1 & H2 & H3)|(H1 & H2 & H3)];
    repeat match goal with
      | Hlt : ?a < ?b, Hle : ?b <= ?a |- _ =>
          exact (Qlt_not_le _ _ Hlt Hle)
      end.
Qed.

(** C8. [strong_trends] ranks exactly rows whose three changes share a
    sign: its rows are such rows of the snapshot, at most 5 of them, in
    descending order of [market_cap], and such a row is left out only when
    the view is full of rows of market cap at least as large.  A snapshot of
    3 rows all positive on the three horizons has its 3 rows in the view,
    in descending order of [market_cap]. *)
Theorem C8_strong_trends :
  forall df : dataframe,
    let rows := strong_trends_rows df in
    strong_trends (analysis df)
    = map (fun x => (symbol x, percent_change_24h x, percent_change_7d x))
          rows
    /\ (forall x, In x rows -> In x df /\ same_sign x)
    /\ (length rows <= 5)%nat
    /\ StronglySorted (fun a b => market_cap b <= market_cap a) rows
    /\ (forall x, In x df -> same_sign x ->
          In x rows
          \/ (length rows = 5%nat
              /\ forall a, In a rows -> market_cap x <= market_cap a))
    /\ (length df = 3%nat ->
        Forall (fun x => 0 < percent_change_1h x
                         /\ 0 < percent_change_24h x
                         /\ 0 < percent_change_7d x) df ->
        Permutation rows df /\ length (strong_trends (analysis df)) = 3%nat).
Proof.
  intros df rows; subst rows. unfold strong_trends_rows.
  set (consistent := filter (fun x => (trend_consistency x =? 1)%Z) df).
  destruct (nlargest_spec row market_cap 5 consistent)
    as (Hl & Hs & rest & Hp & Hle & Hfull).
  split; [reflexivity|]. split; [|split; [|split; [exact Hs|split]]].
  - intros x Hx. apply nlargest_incl in Hx. unfold consistent in Hx.
    apply filter_In in Hx. destruct Hx as [Hin Ht].
    split; [exact Hin | now apply trend_consistency_spec].
  - rewrite Hl. apply Nat.le_min_l.
  - intros x Hin Hsign.
    assert (Hc : In x consistent).
    { unfold consistent. apply filter_In. split; [exact Hin|].
      now apply trend_consistency_spec. }
    apply (Permutation_in _ Hp) in Hc. apply in_app_or in Hc.
    destruct Hc as [Hc|Hc]; [now left|right].
    split.
    + apply Hfull. intros E. rewrite E in Hc. contradiction.
    + intros a Ha. now apply Hle.
  - intros H3 Hpos.
    assert (Hall : consistent = df).
    { unfold consistent. clear - Hpos.
      induction Hpos as [|x l Hx _ IH]; simpl; [reflexivity|].
      assert (E : (trend_consistency x =? 1)%Z = true)
        by (apply trend_consistency_spec; now left).
      rewrite E, IH. reflexivity. }
    assert (Hrest : rest = []).
    { apply length_zero_iff_nil.
      pose proof (Permutation_length Hp) as Hn.
      rewrite length_app, Hl, Hall, H3 in Hn. simpl in Hn. lia. }
    rewrite Hrest, app_nil_r, Hall in Hp.
    split; [rewrite Hall; now apply Permutation_sym|].
    change (strong_trends (analysis df))
      with (map (fun x => (symbol x, percent_change_24h x, percent_change_7d x))
                (pd.nlargest 5 market_cap consistent)).
    rewrite length_map, Hl, Hall, H3. reflexivity.
Qed.

(* ================================================================== *)
(** * Facts about the alerts and the derived columns *)
(* ================================================================== *)

Lemma fold_left_append (A B : Type) (f : A -> B) (l : list A) (acc : list B) :
  fold_left (fun alerts x => alerts ++ [f x]) l acc = acc ++ map f l.
Proof.
  revert acc; induction l as [|x l IH]; intros acc; simpl.
  - now rewrite app_nil_r.
  - now rewrite IH, <- app_assoc.
Qed.

(** The alerts of a snapshot: one message per big mover, in order. *)
Lemma check_for_alerts_map (plat : platform) (df : dataframe)
    (previous_df : option dataframe) :
  check_for_alerts plat (Some df) previous_df
  = map (alert_message plat)
        (filter (fun x => gt (Qabs (percent_change_1h x)) 10) df).
Proof.
  unfold check_for_alerts, empty. destruct df as [|x df].
  - reflexivity.
  - cbn [not_ items]. rewrite fold_left_append.
    destruct (negb (not_ previous_df)); reflexivity.
Qed.

(** C10. [check_for_alerts] emits a movement alert for a row if and only
    if the absolute value of its [percent_change_1h] is strictly greater
    than 10: a qualifying row adds exactly its one message, in order, any
    other row adds nothing, and an empty snapshot gives the empty list. *)
Theorem C10_big_mover_alerts :
  forall (plat : platform) (previous_df : option dataframe),
    check_for_alerts plat (Some []) previous_df = []
    /\ check_for_alerts plat None previous_df = []
    /\ (forall (x : row) (df : dataframe),
          10 < Qabs (percent_change_1h x) ->
          check_for_alerts plat (Some (x :: df)) previous_df
          = alert_message plat x :: check_for_alerts plat (Some df) previous_df)
    /\ (forall (x : row) (df : dataframe),
          ~ 10 < Qabs (percent_change_1h x) ->
          check_for_alerts plat (Some (x :: df)) previous_df
          = check_for_alerts plat (Some df) previous_df)
    /\ (forall df : dataframe,
          length (check_for_alerts plat (Some df) previous_df)
          = length (filter (fun x => gt (Qabs (percent_change_1h x)) 10) df))
    /\ (forall x : row,
          gt (Qabs (percent_change_1h x)) 10 = true
          <-> 10 < Qabs (percent_change_1h x)).
Proof.
  intros plat previous_df.
  split; [reflexivity|]. split; [reflexivity|].
  split; [|split; [|split]].
  - intros x df H. rewrite !check_for_alerts_map. simpl.
    apply gt_iff in H. rewrite H. reflexivity.
  - intros x df H. rewrite !check_for_alerts_map. simpl.
    destruct (gt (Qabs (percent_change_1h x)) 10) eqn:E; [|reflexivity].
    apply gt_iff in E. contradiction.
  - intros df. rewrite check_for_alerts_map. apply length_map.
  - intros x. apply gt_iff.
Qed.

Lemma usd_present (A : Type) (key : string) (proj : usd_quote -> option A)
    (c : coin) (u : usd_quote) (v : A) :
  coin_quote c = Some (Some u) -> proj u = Some v -> usd key proj c = Ok v.
Proof. intros Hq Hv. unfold usd. rewrite Hq. simpl. now rewrite Hv. Qed.

(** The guarded division on the numbers of one asset. *)
Lemma volume_to_market_cap_guarded (c : coin) (u : usd_quote) (v m : Q) :
  coin_quote c = Some (Some u) ->
  usd_volume_24h u = Some v ->
  usd_market_cap u = Some m ->
  volume_to_market_cap_value c = Ok (if gt m 0 then v / m else 0).
Proof.
  intros Hq Hv Hm. unfold volume_to_market_cap_value.
  rewrite (usd_present _ "market_cap" usd_market_cap c u m Hq Hm).
  rewrite (usd_present _ "volume_24h" usd_volume_24h c u v Hq Hv).
  simpl. destruct (gt m 0) eqn:E; [|reflexivity].
  unfold truediv. destruct (Qeq_bool m 0) eqn:Z; [|reflexivity].
  apply gt_iff in E. apply Qeq_bool_iff in Z. rewrite Z in E.
  exfalso. exact (Qlt_irrefl 0 E).
Qed.

(** The division of [volume_to_market_cap] never fails, whatever the
    asset. *)
Lemma volume_to_market_cap_never_divides_by_zero (c : coin) :
  volume_to_market_cap_value c <> Raise ZeroDivisionError.
Proof.
  unfold volume_to_market_cap_value, usd, truediv.
  destruct (coin_quote c) as [[u|]|]; simpl; try discriminate.
  destruct (usd_market_cap u) as [m|]; simpl; try discriminate.
  destruct (gt m 0) eqn:E; try discriminate.
  destruct (usd_volume_24h u) as [v|]; simpl; try discriminate.
  destruct (Qeq_bool m 0) eqn:Z; try discriminate.
  apply gt_iff in E. apply Qeq_bool_iff in Z. rewrite Z in E.
  exfalso. exact (Qlt_irrefl 0 E).
Qed.

Section CollectFacts.

Variables A B : Type.
Variable f : A -> result B.

Lemma collect_ok (l : list A) (acc out : list B) :
  collect f l acc = Ok out ->
  exists rs, out = acc ++ rs /\ Forall2 (fun x y => f x = Ok y) l rs.
Proof.
  revert acc; induction l as [|x l IH]; simpl; intros acc H.
  - inversion H; subst. exists []. split; [now rewrite app_nil_r|constructor].
  - destruct (f x) as [y|e] eqn:E; simpl in H; [|discriminate].
    destruct (IH _ H) as (rs & -> & Hrs).
    exists (y :: rs). split; [now rewrite <- app_assoc|].
    constructor; assumption.
Qed.

Lemma collect_total (l : list A) (acc : list B) :
  Forall (fun x => exists y, f x = Ok y) l ->
  exists rs, collect f l acc = Ok (acc ++ rs) /\ length rs = length l.
Proof.
  intros H; revert acc; induction H as [|x l [y Hy] _ IH]; intros acc; simpl.
  - exists []. split; [now rewrite app_nil_r|reflexivity].
  - rewrite Hy. simpl. destruct (IH (acc ++ [y])) as (rs & E & Hl).
    exists (y :: rs). rewrite E, <- app_assoc. split; [reflexivity|].
    simpl. now rewrite Hl.
Qed.

(** The loop stops at the first element on which [f] raises: nothing is
    collected. *)
Lemma collect_raises (l1 l2 : list A) (x : A) (e : exn) (acc : list B) :
  Forall (fun a => exists y, f a = Ok y) l1 ->
  f x = Raise e ->
  collect f (l1 ++ x :: l2) acc = Raise e.
Proof.
  intros H Hx; revert acc; induction H as [|a l [y Hy] _ IH]; intros acc; simpl.
  - now rewrite Hx.
  - rewrite Hy. simpl. apply IH.
Qed.

Lemma collect_raise_inv (l : list A) (acc : list B) (e : exn) :
  collect f l acc = Raise e -> exists x, In x l /\ f x = Raise e.
Proof.
  revert acc; induction l as [|x l IH]; simpl; intros acc H.
  - discriminate.
  - destruct (f x) as [y|e'] eqn:E; simpl in H.
    + destruct (IH _ H) as (z & Hz & Ez). exists z. auto.
    + inversion H; subst. exists x. auto.
Qed.

End CollectFacts.

(** What a row built by [coin_data] holds. *)
Lemma coin_data_ok (c : coin) (r : row) :
  coin_data c = Ok r ->
  exists u,
    coin_quote c = Some (Some u)
    /\ usd_market_cap u = Some (market_cap r)
    /\ usd_volume_24h u = Some (volume_24h r)
    /\ volume_to_market_cap_value c = Ok (volume_to_market_cap r).
Proof.
  unfold coin_data, usd. intros H.
  destruct (coin_id c); simpl in H; [|discriminate].
  destruct (coin_name c); simpl in H; [|discriminate].
  destruct (coin_symbol c); simpl in H; [|discriminate].
  destruct (coin_quote c) as [[u|]|] eqn:Q; simpl in H; try discriminate.
  destruct (usd_price u); simpl in H; [|discriminate].
  destruct (usd_market_cap u) eqn:M; simpl in H; [|discriminate].
  destruct (usd_volume_24h u) eqn:V; simpl in H; [|discriminate].
  destruct (usd_percent_change_1h u); simpl in H; [|discriminate].
  destruct (usd_percent_change_24h u); simpl in H; [|discriminate].
  destruct (usd_percent_change_7d u); simpl in H; [|discriminate].
  destruct (volume_to_market_cap_value c) eqn:R; simpl in H; [|discriminate].
  inversion H; subst; simpl. exists u. auto.
Qed.

Lemma coin_data_ratio (c : coin) (r : row) :
  coin_data c = Ok r -> liquidity_ratio_ok r.
Proof.
  intros H. destruct (coin_data_ok c r H) as (u & Hq & Hm & Hv & Hr).
  rewrite (volume_to_market_cap_guarded c u _ _ Hq Hv Hm) in Hr.
  inversion Hr as [E]. unfold liquidity_ratio_ok. rewrite <- E. split.
  - intros Hpos. apply gt_iff in Hpos. now rewrite Hpos.
  - intros Hz.
    assert (G : gt (market_cap r) 0 = false)
      by (apply gt_false_iff; rewrite Hz; apply Qle_refl).
    now rewrite G.
Qed.

Lemma coin_data_complete (c : coin) :
  complete c -> exists r, coin_data c = Ok r.
Proof.
  intros (i & n & s & u & p & m & v & c1 & c24 & c7
          & Hi & Hn & Hs & Hq & Hp & Hm & Hv & H1 & H24 & H7).
  unfold coin_data.
  rewrite (volume_to_market_cap_guarded c u v m Hq Hv Hm).
  unfold usd. rewrite Hi, Hn, Hs, Hq. simpl.
  rewrite Hp, Hm, Hv, H1, H24, H7. simpl. eexists; reflexivity.
Qed.

Lemma coin_data_never_divides_by_zero (c : coin) :
  coin_data c <> Raise ZeroDivisionError.
Proof.
  unfold coin_data, usd. intros H.
  destruct (coin_id c); simpl in H; [|discriminate].
  destruct (coin_name c); simpl in H; [|discriminate].
  destruct (coin_symbol c); simpl in H; [|discriminate].
  destruct (coin_quote c) as [[u|]|] eqn:Q; simpl in H; try discriminate.
  destruct (usd_price u); simpl in H; [|discriminate].
  destruct (usd_market_cap u) eqn:M; simpl in H; [|discriminate].
  destruct (usd_volume_24h u) eqn:V; simpl in H; [|discriminate].
  destruct (usd_percent_change_1h u); simpl in H; [|discriminate].
  destruct (usd_percent_change_24h u); simpl in H; [|discriminate].
  destruct (usd_percent_change_7d u); simpl in H; [|discriminate].
  destruct (volume_to_market_cap_value c) eqn:R; simpl in H; [discriminate|].
  inversion H; subst.
  exact (volume_to_market_cap_never_divides_by_zero c R).
Qed.


Lemma sum_shares (total : Q) (df : dataframe) :
  pd.sum (map (fun x => market_cap x / total * 100) df)
  == pd.sum (map market_cap df) / total * 100.
Proof.
  induction df as [|x df IH]; simpl.
  - unfold Qdiv. ring.
  - rewrite IH. unfold Qdiv. ring.
Qed.

Lemma sum_zeros (A : Type) (l : list A) :
  pd.sum (map (fun _ => 0) l) == 0.
Proof.
  induction l as [|m l IH]; simpl.
  - reflexivity.
  - rewrite IH. ring.
Qed.

Lemma sum_nonneg (l : list Q) : Forall (fun m => 0 <= m) l -> 0 <= pd.sum l.
Proof.
  induction 1 as [|m l Hm _ IH]; simpl.
  - apply Qle_refl.
  - replace 0 with (0 + 0) by reflexivity. now apply Qplus_le_compat.
Qed.

(** The column [market_dominance] when the total is positive. *)
Lemma market_dominance_positive_total (df : dataframe) :
  0 < pd.sum (map market_cap df) ->
  market_dominance_column df
  = map (fun x => market_cap x / pd.sum (map market_cap df) * 100) df.
Proof.
  intros H. unfold market_dominance_column.
  apply gt_iff in H. now rewrite H.
Qed.

(** The column [market_dominance] when the total is not positive. *)
Lemma market_dominance_zero_total (df : dataframe) :
  pd.sum (map market_cap df) <= 0 ->
  market_dominance_column df = map (fun _ => 0) df.
Proof.
  intros H. unfold market_dominance_column.
  apply gt_false_iff in H. now rewrite H.
Qed.


(* ================================================================== *)
(** * Facts about one cycle and the scheduler loop *)
(* ================================================================== *)

(** A failed fetch: [get_crypto_data] logs one error and returns [None]. *)
Lemma get_crypto_data_fails (cfg : config) (w : world) :
  fetch_fails w ->
  exists site w',
    get_crypto_data cfg w = (Ok None, w')
    /\ trace w' = trace w ++ [HttpGet (TOP_N_COINS cfg); Log ERROR site].
Proof.
  unfold fetch_fails, get_crypto_data, try_except, bind, requests_get.
  intros H. destruct (api w) as [|[r|] rest]; simpl.
  - eexists _, _. split; [reflexivity|]. simpl. now rewrite <- app_assoc.
  - apply Z.eqb_neq in H. rewrite H. simpl.
    eexists _, _. split; [reflexivity|]. simpl. now rewrite <- app_assoc.
  - eexists _, _. split; [reflexivity|]. simpl. now rewrite <- app_assoc.
Qed.

(** C1 (the code departs from the claim). When the fetch fails (the HTTP
    client raises, or the status is not 200) the cycle of [cryptoBot1.py]
    returns normally, so the loop goes on, and writes nothing to the store;
    but it attempts no notification at all: the failure is only logged.
    The claim asks for exactly one warning notification. *)
Theorem C1_failed_fetch_is_logged_not_notified :
  forall (cfg : config) (plat : platform) (w : world),
    fetch_fails w ->
    fst (process_crypto_data cfg plat w) = Ok tt
    /\ filter is_store_write (events_of (process_crypto_data cfg plat) w) = []
    /\ filter is_notification (events_of (process_crypto_data cfg plat) w)
       = []
    /\ exists site,
         events_of (process_crypto_data cfg plat) w
         = [HttpGet (TOP_N_COINS cfg); Log ERROR site;
            Log ERROR "No se pudieron obtener datos. Saltando este ciclo."].
Proof.
  intros cfg plat w H.
  destruct (get_crypto_data_fails cfg w H) as (site & w' & E & T).
  assert (Hev : events_of (process_crypto_data cfg plat) w
                = [HttpGet (TOP_N_COINS cfg); Log ERROR site;
                   Log ERROR
                     "No se pudieron obtener datos. Saltando este ciclo."]).
  { unfold events_of, process_crypto_data, bind. rewrite E. simpl.
    rewrite T, <- app_assoc. apply skipn_app_exact. }
  rewrite Hev. repeat split.
  - unfold process_crypto_data, bind. rewrite E. reflexivity.
  - exists site. reflexivity.
Qed.

Lemma C1_failed_fetch_witness :
  filter is_notification
    (events_of (process_crypto_data Sample.cfg Sample.plat)
       (initial [Sample.http 500 []] [] [] true))
  = [].
Proof.
  apply (C1_failed_fetch_is_logged_not_notified Sample.cfg Sample.plat
           (initial [Sample.http 500 []] [] [] true)).
  simpl. discriminate.
Defined.

(** X20. The loop of [CryptoBot.py] does send the warning on a status
    other than 200: exactly one notification, the warning. *)
Lemma CryptoBot_cycle_warns (plat : platform) (w : world) (r : response)
    (rest : list (option response)) :
  api w = Some r :: rest ->
  status_code r <> 200%Z ->
  filter is_notification (events_of (CryptoBot.cycle plat) w)
  = [SendMessage (lit "⚠️ Error obteniendo datos de CoinMarketCap.")].
Proof.
  intros Ha Hs. apply Z.eqb_neq in Hs.
  unfold events_of, CryptoBot.cycle, CryptoBot.get_crypto_data, bind,
    requests_get, CryptoBot.send_message_to_telegram, requests_post,
    time_sleep.
  rewrite Ha. simpl. rewrite Hs. simpl.
  destruct (telegram w) as [|[|] posts]; simpl;
    try (destruct (signals w) as [|[|] sigs]; simpl);
    repeat rewrite <- app_assoc; rewrite skipn_app_exact; reflexivity.
Qed.

(** X21. The hand-run cycle of [testcryptodata.py] sends the warning on
    every failed fetch: exactly one notification. *)
Lemma testcryptodata_main_warns (cfg : config) (plat : platform) (w : world) :
  fetch_fails w ->
  filter is_notification (events_of (testcryptodata.main cfg plat) w)
  = [SendMessage (lit "⚠️ No se pudieron obtener datos de CoinMarketCap.")].
Proof.
  intros H.
  assert (H' : fetch_fails
                 (emit (Log INFO "Iniciando prueba de CryptoBot en local...") w))
    by exact H.
  destruct (get_crypto_data_fails cfg _ H') as (site & w' & E & T).
  unfold events_of, testcryptodata.main, testcryptodata.get_crypto_data,
    bind, log.
  rewrite E. cbn [not_].
  unfold testcryptodata.send_message_to_telegram, try_except, bind,
    requests_post, log, ret.
  destruct (telegram w') as [|[|] posts]; simpl; rewrite T; simpl;
    repeat rewrite <- app_assoc; rewrite skipn_app_exact; reflexivity.
Qed.

(** A cycle of the loop that returns is followed by the next turn of the
    loop. *)
Lemma main_loop_goes_on (cfg : config) (plat : platform) (n : nat)
    (w w' : world) :
  (log INFO "Esperando hasta la próxima actualización" ;;;
   time_sleep (FETCH_INTERVAL cfg) ;;;
   process_crypto_data cfg plat) w = (Ok tt, w') ->
  main_loop cfg plat (S n) w = main_loop cfg plat n w'.
Proof.
  intros H. cbn [main_loop]. now rewrite H.
Qed.

(** [convert_to_dataframe] stops at the first asset with a missing key:
    the whole conversion raises, and no row is returned. *)
Lemma convert_to_dataframe_aborts (l1 l2 : list coin) (c : coin) (e : exn) :
  Forall complete l1 ->
  coin_data c = Raise e ->
  convert_to_dataframe (Some (l1 ++ c :: l2)) = Raise e.
Proof.
  intros Hl Hc. unfold convert_to_dataframe.
  assert (Hn : not_ (Some (l1 ++ c :: l2)) = false)
    by (destruct l1; reflexivity).
  rewrite Hn. cbn [items].
  rewrite (collect_raises _ _ coin_data l1 l2 c e []); [reflexivity| |exact Hc].
  eapply Forall_impl; [|exact Hl]. apply coin_data_complete.
Qed.

(** C4 (the code departs from the claim). On a payload whose second asset
    has no [price], [convert_to_dataframe] raises [KeyError]: the cycle
    stops there and sends nothing, instead of going on with the two other
    assets.  [save_data_to_db], on the same payload, does skip the one
    asset: it inserts the two others and logs one error. *)
Theorem C4_missing_field_aborts_the_cycle :
  convert_to_dataframe (Some Sample.payload_with_gap)
  = Raise (KeyError "price")
  /\ fst (process_crypto_data Sample.cfg Sample.plat
            (initial [Sample.http 200 Sample.payload_with_gap] [] [] true))
     = Raise (KeyError "price")
  /\ filter is_notification
       (trace (snd (process_crypto_data Sample.cfg Sample.plat
                      (initial [Sample.http 200 Sample.payload_with_gap]
                               [] [] true))))
     = []
  /\ fst (save_data_to_db (Some Sample.payload_with_gap)
            (initial [] [] [] true))
     = Ok tt
  /\ map (fun e => match e with
                   | DbInsert r => Some (db_id r)
                   | _ => None
                   end)
         (trace (snd (save_data_to_db (Some Sample.payload_with_gap)
                        (initial [] [] [] true))))
     = [Some 1%Z; None; Some 1027%Z; None; None].
Proof.
  repeat split; vm_compute; reflexivity.
Qed.

(** An exception that leaves the first cycle leaves [main]: the call of
    [process_crypto_data] before the loop is outside the [try]. *)
Lemma main_first_cycle_unprotected (cfg : config) (plat : platform)
    (n : nat) (w w' : world) (e : exn) :
  process_crypto_data cfg plat
    (snd ((log INFO "Iniciando CryptoBot..." ;;; initialize_database) w))
  = (Raise e, w') ->
  main cfg plat n w = (Raise e, w').
Proof.
  intros H. unfold main, bind in *. simpl in *. now rewrite H.
Qed.

(** An exception that leaves a cycle of the loop, other than the user's
    interrupt, is logged and followed by a sleep of 60 seconds; the loop
    then goes on. *)
Lemma main_loop_backs_off (cfg : config) (plat : platform) (n : nat)
    (w w' : world) (e : exn) :
  (log INFO "Esperando hasta la próxima actualización" ;;;
   time_sleep (FETCH_INTERVAL cfg) ;;;
   process_crypto_data cfg plat) w = (Raise e, w') ->
  is_Exception e = true ->
  main_loop cfg plat (S n) w
  = (log ERROR "Error en el bucle principal" ;;;
     time_sleep 60 ;;;
     main_loop cfg plat n) w'.
Proof.
  intros H He. cbn [main_loop]. rewrite H.
  destruct e; try reflexivity. discriminate.
Qed.

(** The user's interrupt stops the loop: [main] returns. *)
Lemma main_loop_stops_on_interrupt (cfg : config) (plat : platform) (n : nat)
    (w w' : world) :
  (log INFO "Esperando hasta la próxima actualización" ;;;
   time_sleep (FETCH_INTERVAL cfg) ;;;
   process_crypto_data cfg plat) w = (Raise KeyboardInterrupt, w') ->
  main_loop cfg plat (S n) w
  = (Ok Stopped, emit (Log INFO "Bot detenido por el usuario") w').
Proof.
  intros H. cbn [main_loop]. rewrite H. reflexivity.
Qed.

(** C9 (the code departs from the claim). When the first cycle, the one
    executed on startup, meets a payload whose second asset has no
    [price], the [KeyError] leaves [main]: the process terminates, with
    no log at the loop level and no 60-second backoff.  The same payload
    met by a cycle of the loop is contained: the error is logged, the loop
    sleeps 60 seconds and runs the next cycle. *)
Theorem C9_first_cycle_exception_terminates_main :
  (forall n : nat,
     fst (main Sample.cfg Sample.plat n
            (initial [Sample.http 200 Sample.payload_with_gap] [] [] true))
     = Raise (KeyError "price")
     /\ filter (fun e => match e with Sleep _ => true | _ => false end)
          (trace (snd (main Sample.cfg Sample.plat n
                         (initial [Sample.http 200 Sample.payload_with_gap]
                                  [] [] true))))
        = [])
  /\ fst (main Sample.cfg Sample.plat 2
            (initial [Sample.http 200 Sample.payload;
                      Sample.http 200 Sample.payload_with_gap;
                      Sample.http 200 Sample.payload] [] [] true))
     = Ok Running
  /\ filter (fun e => match e with
                      | Sleep _ | Log ERROR _ | HttpGet _ => true
                      | _ => false
                      end)
       (trace (snd (main Sample.cfg Sample.plat 2
                      (initial [Sample.http 200 Sample.payload;
                                Sample.http 200 Sample.payload_with_gap;
                                Sample.http 200 Sample.payload]
                               [] [] true))))
     = [HttpGet 100; Sleep 3600; HttpGet 100; Log ERROR "Error al guardar";
        Log ERROR "Error en el bucle principal"; Sleep 60; Sleep 3600;
        HttpGet 100].
Proof.
  split; [|split].
  - intros n.
    rewrite (main_first_cycle_unprotected Sample.cfg Sample.plat n
               (initial [Sample.http 200 Sample.payload_with_gap] [] [] true)
               (snd (process_crypto_data Sample.cfg Sample.plat
                  (snd ((log INFO "Iniciando CryptoBot..." ;;;
                         initialize_database)
                          (initial [Sample.http 200 Sample.payload_with_gap]
                                   [] [] true)))))
               (KeyError "price")).
    + split; vm_compute; reflexivity.
    + vm_compute. reflexivity.
  - vm_compute. reflexivity.
  - vm_compute. reflexivity.
Qed.

(* ================================================================== *)
(** * The statements on the sample data *)
(* ================================================================== *)


(** Three rows rising on the three horizons: all three are in
    [strong_trends], by descending market cap. *)
Example strong_trends_of_three_rising :
  map symbol (strong_trends_rows Sample.rising)
  = [lit "BBB"; lit "CCC"; lit "AAA"]
  /\ map market_cap (strong_trends_rows Sample.rising) = [30; 20; 10].
Proof. split; vm_compute; reflexivity. Qed.

(** Eleven rows of pairwise different changes: the two views have five
    rows each and share none. *)
Example gainers_losers_of_eleven :
  map id (top_gainers_rows Sample.eleven) = [10; 9; 8; 7; 6]%Z
  /\ map id (top_losers_rows Sample.eleven) = [0; 1; 2; 3; 4]%Z.
Proof. split; vm_compute; reflexivity. Qed.

(** The hypotheses under which C5 states that the views are disjoint can
    be met. *)
Example no_value_spans_both_views_of_eleven :
  (10 < length Sample.eleven)%nat
  /\ forall a b,
       In a (top_gainers_rows Sample.eleven) ->
       In b (top_losers_rows Sample.eleven) ->
       ~ percent_change_24h a == percent_change_24h b.
Proof.
  split; [apply Nat.ltb_lt; reflexivity|].
  intros a b Ha Hb.
  assert (Hg : Forall (fun x => 6 <= percent_change_24h x)
                      (top_gainers_rows Sample.eleven))
    by (vm_compute; repeat constructor; discriminate).
  assert (Hl : Forall (fun x => percent_change_24h x <= 4)
                      (top_losers_rows Sample.eleven))
    by (vm_compute; repeat constructor; discriminate).
  rewrite Forall_forall in Hg, Hl.
  specialize (Hg a Ha). specialize (Hl b Hb). intros E. rewrite E in Hg.
  assert (H : 6 <= 4) by (eapply Qle_trans; eassumption).
  vm_compute in H. now apply H.
Qed.

(** Eleven rows of one and the same change: a tie spans both views, and
    the two views are the same five rows. *)
Example gainers_losers_of_eleven_level :
  top_gainers_rows Sample.eleven_level = top_losers_rows Sample.eleven_level
  /\ map id (top_gainers_rows Sample.eleven_level) = [0; 1; 2; 3; 4]%Z.
Proof. split; vm_compute; reflexivity. Qed.

(** The sample payload converts to two rows; the ratio of the first is its
    volume over its market cap. *)
Example convert_sample_payload :
  exists btc eth,
    convert_to_dataframe (Some Sample.payload) = Ok (Some [btc; eth])
    /\ volume_to_market_cap btc = 30 / 1200
    /\ symbol eth = lit "ETH".
Proof. eexists _, _. repeat split. Qed.

(** An asset of market cap 0: the ratio is 0, and nothing is divided. *)
Example convert_zero_market_cap :
  exists r,
    convert_to_dataframe
      (Some [Sample.asset 5 "Zero" "ZRO" (Sample.usd_of 1 0 7 0 0 0)])
    = Ok (Some [r])
    /\ volume_to_market_cap r = 0.
Proof. eexists. split; reflexivity. Qed.

(** One big mover among three rows: one alert, for that row. *)
Example alerts_of_three :
  let df := [Sample.quote_row 1 "AAA" 1 10 0 0;
             Sample.quote_row 2 "BBB" 1 (-21 # 2) 0 0;
             Sample.quote_row 3 "CCC" 1 (-10) 0 0] in
  check_for_alerts Sample.plat (Some df) None
  = [alert_message Sample.plat (Sample.quote_row 2 "BBB" 1 (-21 # 2) 0 0)].
Proof. vm_compute. reflexivity. Qed.

(** A cycle on the sample payload: the store is written, then one photo
    with the report as caption. *)
Example cycle_on_sample_payload :
  let r := process_crypto_data Sample.cfg Sample.plat
             (initial [Sample.http 200 Sample.payload] [] [] true) in
  fst r = Ok tt
  /\ length (filter is_store_write (trace (snd r))) = 14%nat
  /\ length (filter is_notification (trace (snd r))) = 1%nat
  /\ length (sent_captions (trace (snd r))) = 1%nat.
Proof. vm_compute. repeat split. Qed.

(* ================================================================== *)
(** * Further facts: the fetcher *)
(* ================================================================== *)

(** X1. [get_crypto_data] returns the payload's data exactly when the GET
    is answered with status 200 and the body decodes; every exception of
    the HTTP client or of the decoding is caught, so none leaves the
    function; and one GET is attempted, with the configured limit. *)
Theorem get_crypto_data_returns_data_iff :
  forall (cfg : config) (w : world),
    (forall data,
       fst (get_crypto_data cfg w) = Ok (Some data)
       <-> exists r rest,
             api w = Some r :: rest
             /\ status_code r = 200%Z /\ json_data r = Ok data)
    /\ (forall e, fst (get_crypto_data cfg w) = Raise e ->
                  e = KeyboardInterrupt)
    /\ filter (fun e => match e with HttpGet _ => true | _ => false end)
         (events_of (get_crypto_data cfg) w)
       = [HttpGet (TOP_N_COINS cfg)].
Proof.
  intros cfg w.
  unfold events_of, get_crypto_data, try_except, bind, requests_get, lift,
    log, ret.
  destruct (api w) as [|[r|] rest] eqn:Ha; simpl.
  - repeat split.
    + discriminate.
    + intros (r & rest & H & _). discriminate.
    + discriminate.
    + rewrite <- app_assoc, skipn_app_exact. reflexivity.
  - destruct (status_code r =? 200)%Z eqn:Hs.
    + apply Z.eqb_eq in Hs.
      destruct (json_data r) as [data|e] eqn:Hj; simpl.
      * repeat split.
        -- intros H. inversion H; subst. exists r, rest. auto.
        -- intros (r' & rest' & H & _ & Hd). inversion H; subst.
           rewrite Hj in Hd. inversion Hd; subst. reflexivity.
        -- discriminate.
        -- rewrite <- app_assoc, skipn_app_exact. reflexivity.
      * destruct e; simpl; repeat split;
          try discriminate;
          try (intros (r' & rest' & H & _ & Hd); inversion H; subst;
               rewrite Hj in Hd; discriminate);
          try (rewrite <- app_assoc, skipn_app_exact; reflexivity);
          try (rewrite skipn_app_exact; reflexivity);
          try (intros e' H; inversion H; reflexivity).
    + apply Z.eqb_neq in Hs. simpl. repeat split.
      * discriminate.
      * intros (r' & rest' & H & Hs' & _). inversion H; subst. contradiction.
      * discriminate.
      * rewrite <- app_assoc, skipn_app_exact. reflexivity.
  - repeat split.
    + discriminate.
    + intros (r & rest' & H & _). discriminate.
    + discriminate.
    + rewrite <- app_assoc, skipn_app_exact. reflexivity.
Qed.

(* ================================================================== *)
(** * Further facts: the store *)
(* ================================================================== *)

(** The values of an insert can only fail on a missing key. *)
Lemma insert_values_raises_key_error (c : coin) (e : exn) :
  insert_values c = Raise e -> is_Exception e = true.
Proof.
  unfold insert_values, usd. intros H.
  destruct (coin_id c); simpl in H; [|inversion H; reflexivity].
  destruct (coin_symbol c); simpl in H; [|inversion H; reflexivity].
  destruct (coin_name c); simpl in H; [|inversion H; reflexivity].
  destruct (coin_quote c) as [[u|]|]; simpl in H;
    try (inversion H; reflexivity).
  destruct (usd_price u); simpl in H; [|inversion H; reflexivity].
  destruct (usd_market_cap u); simpl in H; [|inversion H; reflexivity].
  destruct (usd_volume_24h u); simpl in H; [|inversion H; reflexivity].
  destruct (usd_percent_change_1h u); simpl in H;
    [|inversion H; reflexivity].
  destruct (usd_percent_change_24h u); simpl in H;
    [|inversion H; reflexivity].
  destruct (usd_percent_change_7d u); simpl in H;
    [|inversion H; reflexivity].
  discriminate.
Qed.

Lemma insert_values_without_symbol (c : coin) :
  coin_symbol c = None -> exists e, insert_values c = Raise e.
Proof.
  unfold insert_values. intros H. rewrite H.
  destruct (coin_id c); simpl; eauto.
Qed.

Lemma insert_values_complete (c : coin) :
  complete c ->
  exists r,
    insert_values c = Ok r
    /\ coin_id c = Some (db_id r) /\ coin_symbol c = Some (db_symbol r).
Proof.
  intros (i & n & s & u & p & m & v & c1 & c24 & c7
          & Hi & Hn & Hs & Hq & Hp & Hm & Hv & H1 & H24 & H7).
  unfold insert_values, usd. rewrite Hi, Hn, Hs, Hq. simpl.
  rewrite Hp, Hm, Hv, H1, H24, H7. simpl. eexists. repeat split; auto.
Qed.

(** One turn of the loop of [save_data_to_db] on an asset that has a
    symbol: it returns, and leaves the insert or the logged error. *)
Lemma save_one_asset (c : coin) (w : world) :
  coin_symbol c <> None ->
  try_except
    (r <- lift (insert_values c) ;; do (DbInsert r))
    (fun _ =>
       _ <- lift (getitem "symbol" (coin_symbol c)) ;;
       log ERROR "Error al guardar") w
  = (Ok tt, emit (insert_event c) w).
Proof.
  intros Hs. unfold try_except, bind, lift, do, log, insert_event.
  destruct (insert_values c) as [r|e] eqn:E; [reflexivity|].
  rewrite (insert_values_raises_key_error c e E).
  destruct (coin_symbol c); [reflexivity | contradiction].
Qed.

(** One turn of the loop on an asset without symbol: the handler's own
    message fails, and the [KeyError] leaves the loop. *)
Lemma save_one_asset_without_symbol (c : coin) (w : world) :
  coin_symbol c = None ->
  try_except
    (r <- lift (insert_values c) ;; do (DbInsert r))
    (fun _ =>
       _ <- lift (getitem "symbol" (coin_symbol c)) ;;
       log ERROR "Error al guardar") w
  = (Raise (KeyError "symbol"), w).
Proof.
  intros Hs. unfold try_except, bind, lift, do, log.
  destruct (insert_values_without_symbol c Hs) as [e E]. rewrite E.
  rewrite (insert_values_raises_key_error c e E). now rewrite Hs.
Qed.

Lemma save_loop (data : list coin) (w : world) :
  Forall (fun c => coin_symbol c <> None) data ->
  exists w',
    for_each data
      (fun c =>
         try_except
           (r <- lift (insert_values c) ;; do (DbInsert r))
           (fun _ =>
              _ <- lift (getitem "symbol" (coin_symbol c)) ;;
              log ERROR "Error al guardar")) w
    = (Ok tt, w')
    /\ trace w' = trace w ++ map insert_event data.
Proof.
  intros H; revert w; induction H as [|c l Hc _ IH]; intros w; simpl.
  - exists w. unfold ret. now rewrite app_nil_r.
  - unfold bind at 1. rewrite (save_one_asset c w Hc).
    destruct (IH (emit (insert_event c) w)) as (w' & E & T).
    exists w'. split; [exact E|]. rewrite T. simpl.
    now rewrite <- app_assoc.
Qed.

Lemma save_loop_stops (l1 l2 : list coin) (c : coin) (w : world) :
  Forall (fun c => coin_symbol c <> None) l1 ->
  coin_symbol c = None ->
  exists w',
    for_each (l1 ++ c :: l2)
      (fun c =>
         try_except
           (r <- lift (insert_values c) ;; do (DbInsert r))
           (fun _ =>
              _ <- lift (getitem "symbol" (coin_symbol c)) ;;
              log ERROR "Error al guardar")) w
    = (Raise (KeyError "symbol"), w')
    /\ trace w' = trace w ++ map insert_event l1.
Proof.
  intros H Hc; revert w; induction H as [|a l Ha _ IH]; intros w; simpl.
  - unfold bind at 1. rewrite (save_one_asset_without_symbol c w Hc).
    exists w. now rewrite app_nil_r.
  - unfold bind at 1. rewrite (save_one_asset a w Ha).
    destruct (IH (emit (insert_event a) w)) as (w' & E & T).
    exists w'. split; [exact E|]. rewrite T. simpl.
    now rewrite <- app_assoc.
Qed.





(* ================================================================== *)
(** * Further facts: the conversion to a DataFrame *)
(* ================================================================== *)

(** A row built by [coin_data] holds the values of its asset. *)
Lemma coin_data_mirrors (c : coin) (r : row) :
  coin_data c = Ok r -> mirrors c r.
Proof.
  unfold coin_data, usd, mirrors. intros H.
  destruct (coin_id c); simpl in H; [|discriminate].
  destruct (coin_name c); simpl in H; [|discriminate].
  destruct (coin_symbol c); simpl in H; [|discriminate].
  destruct (coin_quote c) as [[u|]|] eqn:Q; simpl in H; try discriminate.
  destruct (usd_price u) eqn:P; simpl in H; [|discriminate].
  destruct (usd_market_cap u) eqn:M; simpl in H; [|discriminate].
  destruct (usd_volume_24h u) eqn:V; simpl in H; [|discriminate].
  destruct (usd_percent_change_1h u) eqn:C1; simpl in H; [|discriminate].
  destruct (usd_percent_change_24h u) eqn:C24; simpl in H; [|discriminate].
  destruct (usd_percent_change_7d u) eqn:C7; simpl in H; [|discriminate].
  destruct (volume_to_market_cap_value c) eqn:R; simpl in H; [|discriminate].
  inversion H; subst; simpl. repeat split. exists u. repeat split; auto.
Qed.

Lemma mirrors_complete (c : coin) (r : row) : mirrors c r -> complete c.
Proof.
  intros (Hi & Hn & Hs & u & Hq & Hp & Hm & Hv & H1 & H24 & H7).
  unfold complete.
  exists (id r), (name r), (symbol r), u, (price r), (market_cap r),
    (volume_24h r), (percent_change_1h r), (percent_change_24h r),
    (percent_change_7d r).
  repeat split; assumption.
Qed.

(** [coin_data] can only fail on a missing key. *)
Lemma coin_data_raises_key_error (c : coin) (e : exn) :
  coin_data c = Raise e -> exists key, e = KeyError key.
Proof.
  unfold coin_data, usd. intros H.
  destruct (coin_id c); simpl in H; [|inversion H; eauto].
  destruct (coin_name c); simpl in H; [|inversion H; eauto].
  destruct (coin_symbol c); simpl in H; [|inversion H; eauto].
  destruct (coin_quote c) as [[u|]|] eqn:Q; simpl in H;
    try (inversion H; eauto; fail).
  destruct (usd_price u); simpl in H; [|inversion H; eauto].
  destruct (usd_market_cap u) eqn:M; simpl in H; [|inversion H; eauto].
  destruct (usd_volume_24h u) eqn:V; simpl in H; [|inversion H; eauto].
  destruct (usd_percent_change_1h u); simpl in H; [|inversion H; eauto].
  destruct (usd_percent_change_24h u); simpl in H; [|inversion H; eauto].
  destruct (usd_percent_change_7d u); simpl in H; [|inversion H; eauto].
  rewrite (volume_to_market_cap_guarded c u _ _ Q V M) in H.
  discriminate.
Qed.


(* ================================================================== *)
(** * Further facts: the other views of the analysis *)
(* ================================================================== *)

(** X5. [high_liquidity] and [high_volatility] hold the [min 5 (size)]
    rows of largest [volume_to_market_cap] and of largest volatility, in
    descending order: a row left out of a view is no larger than any row
    in it.  The volatility shown is never negative. *)
Theorem liquidity_and_volatility_views :
  forall df : dataframe,
    let liquid := high_liquidity_rows df in
    let volatile := high_volatility_rows df in
    high_liquidity (analysis df)
    = map (fun x => (symbol x, volume_to_market_cap x)) liquid
    /\ high_volatility (analysis df)
       = map (fun x => (symbol x, volatility x)) volatile
    /\ length (high_liquidity (analysis df)) = Nat.min 5 (length df)
    /\ length (high_volatility (analysis df)) = Nat.min 5 (length df)
    /\ StronglySorted
         (fun a b => volume_to_market_cap b <= volume_to_market_cap a) liquid
    /\ StronglySorted (fun a b => volatility b <= volatility a) volatile
    /\ (exists rest,
          Permutation df (liquid ++ rest)
          /\ forall a b, In a liquid -> In b rest ->
                         volume_to_market_cap b <= volume_to_market_cap a)
    /\ (exists rest,
          Permutation df (volatile ++ rest)
          /\ forall a b, In a volatile -> In b rest ->
                         volatility b <= volatility a)
    /\ (forall e, In e (high_volatility (analysis df)) -> 0 <= snd e).
Proof.
  intros df liquid volatile; subst liquid volatile.
  destruct (nlargest_spec row volume_to_market_cap 5 df)
    as (Hll & Hls & restl & Hlp & Hlle & _).
  destruct (nlargest_spec row volatility 5 df)
    as (Hvl & Hvs & restv & Hvp & Hvle & _).
  unfold high_liquidity_rows, high_volatility_rows.
  cbn [analysis high_liquidity high_volatility].
  unfold high_liquidity_rows, high_volatility_rows.
  rewrite !length_map.
  split; [reflexivity|]. split; [reflexivity|].
  split; [exact Hll|]. split; [exact Hvl|].
  split; [exact Hls|]. split; [exact Hvs|].
  split; [exists restl; auto|]. split; [exists restv; auto|].
  intros e He. apply in_map_iff in He. destruct He as (x & <- & _).
  simpl. apply Qabs_nonneg.
Qed.

Section SortMapFacts.

Variables A B : Type.
Variable h : A -> B.
Variable before_a : A -> A -> bool.
Variable before_b : B -> B -> bool.
Hypothesis agree : forall x y, before_b (h x) (h y) = before_a x y.

Lemma insert_map (x : A) (l : list A) :
  pd.insert before_b (h x) (map h l) = map h (pd.insert before_a x l).
Proof.
  induction l as [|y l IH]; simpl.
  - reflexivity.
  - rewrite agree. destruct (before_a x y); simpl.
    + reflexivity.
    + now rewrite IH.
Qed.

Lemma sort_map (l : list A) :
  pd.sort before_b (map h l) = map h (pd.sort before_a l).
Proof.
  induction l as [|x l IH]; simpl.
  - reflexivity.
  - now rewrite IH, insert_map.
Qed.

End SortMapFacts.

(** Rows that all tie keep their order. *)
Lemma sort_of_ties (A : Type) (before : A -> A -> bool) (l : list A) :
  (forall x y, before x y = true) -> pd.sort before l = l.
Proof.
  intros H; induction l as [|x l IH]; simpl.
  - reflexivity.
  - rewrite IH. destruct l as [|y l]; simpl; [reflexivity|].
    now rewrite H.
Qed.

Lemma combine_map_self (A B : Type) (f : A -> B) (l : list A) :
  combine l (map f l) = map (fun x => (x, f x)) l.
Proof. induction l as [|x l IH]; simpl; [reflexivity | now rewrite IH]. Qed.

(** Dividing by a positive total and scaling to a percentage keeps the
    order of the market caps. *)
Lemma share_order (total a b : Q) :
  0 < total ->
  Qle_bool (b / total * 100) (a / total * 100) = Qle_bool b a.
Proof.
  intros Hpos.
  assert (Hi : 0 < / total) by now apply Qinv_lt_0_compat.
  assert (Hc : 0 < 100) by reflexivity.
  assert (Hiff : b / total * 100 <= a / total * 100 <-> b <= a).
  { unfold Qdiv. rewrite (Qmult_le_r _ _ _ Hc). apply (Qmult_le_r _ _ _ Hi). }
  destruct (Qle_bool b a) eqn:E.
  - apply Qle_bool_iff, Hiff. now apply Qle_bool_iff.
  - destruct (Qle_bool (b / total * 100) (a / total * 100)) eqn:E';
      [|reflexivity].
    apply Qle_bool_iff, Hiff, Qle_bool_iff in E'. congruence.
Qed.

Lemma market_cap_le_total (df : dataframe) (x : row) :
  Forall (fun y => 0 <= market_cap y) df ->
  In x df -> market_cap x <= pd.sum (map market_cap df).
Proof.
  induction 1 as [|y l Hy Hl IH]; simpl; intros Hin.
  - contradiction.
  - assert (Hs : 0 <= pd.sum (map market_cap l))
      by (apply sum_nonneg; now rewrite Forall_map).
    destruct Hin as [->|Hin].
    + rewrite <- (Qplus_0_r (market_cap x)) at 1.
      apply Qplus_le_compat; [apply Qle_refl | exact Hs].
    + rewrite <- (Qplus_0_l (market_cap x)).
      apply Qplus_le_compat; [exact Hy | now apply IH].
Qed.

(** X6. When the total market cap is positive, [market_dominance] lists
    the 5 rows of largest market cap, in that order, each with its share
    of the total in percent; when the total is not positive it lists the
    first 5 rows of the snapshot with 0.  On non-negative market caps
    every share shown lies between 0 and 100. *)
Theorem market_dominance_ranks_by_market_cap :
  forall df : dataframe,
    let total := pd.sum (map market_cap df) in
    (0 < total ->
     market_dominance (analysis df)
     = map (fun x => (symbol x, market_cap x / total * 100))
           (pd.nlargest 5 market_cap df))
    /\ (total <= 0 ->
        market_dominance (analysis df)
        = map (fun x => (symbol x, 0)) (firstn 5 df))
    /\ (Forall (fun x => 0 <= market_cap x) df ->
        forall e, In e (market_dominance (analysis df)) ->
                  0 <= snd e /\ snd e <= 100).
Proof.
  intros df total.
  assert (Hpos : 0 < total ->
            market_dominance (analysis df)
            = map (fun x => (symbol x, market_cap x / total * 100))
                  (pd.nlargest 5 market_cap df)).
  { intros H. cbn [analysis market_dominance].
    unfold market_dominance_rows.
    rewrite (market_dominance_positive_total df H). fold total.
    rewrite combine_map_self. unfold pd.nlargest.
    rewrite (sort_map row (row * Q)
               (fun x => (x, market_cap x / total * 100))
               (fun a b => Qle_bool (market_cap b) (market_cap a))
               (fun a b => Qle_bool (snd b) (snd a))).
    - rewrite firstn_map, map_map. reflexivity.
    - intros x y. simpl. now apply share_order. }
  assert (Hzero : total <= 0 ->
            market_dominance (analysis df)
            = map (fun x => (symbol x, 0)) (firstn 5 df)).
  { intros H. cbn [analysis market_dominance].
    unfold market_dominance_rows.
    rewrite (market_dominance_zero_total df H).
    rewrite combine_map_self. unfold pd.nlargest.
    rewrite (sort_map row (row * Q) (fun x => (x, 0))
               (fun _ _ => true)
               (fun a b => Qle_bool (snd b) (snd a)));
      [|reflexivity].
    rewrite sort_of_ties; [|reflexivity].
    rewrite firstn_map, map_map. reflexivity. }
  split; [exact Hpos|]. split; [exact Hzero|].
  intros Hnn e He.
  destruct (Qlt_le_dec 0 total) as [H|H].
  - rewrite (Hpos H) in He. apply in_map_iff in He.
    destruct He as (x & <- & Hx). simpl.
    apply nlargest_incl in Hx.
    assert (Hx0 : 0 <= market_cap x)
      by (rewrite Forall_forall in Hnn; now apply Hnn).
    assert (Hxt : market_cap x <= total)
      by now apply market_cap_le_total.
    assert (Hi : 0 <= / total)
      by (apply Qlt_le_weak; now apply Qinv_lt_0_compat).
    split.
    + apply Qmult_le_0_compat; [|discriminate].
      unfold Qdiv. now apply Qmult_le_0_compat.
    + assert (Hd : market_cap x / total <= 1).
      { apply Qle_shift_div_r; [exact H|]. now rewrite Qmult_1_l. }
      apply (Qmult_le_compat_r _ _ 100) in Hd; [|discriminate].
      exact Hd.
  - rewrite (Hzero H) in He. apply in_map_iff in He.
    destruct He as (x & <- & _). simpl. split; discriminate.
Qed.

(* ================================================================== *)
(** * Further facts: the notifier *)
(* ================================================================== *)

(** A POST to Telegram returns or raises the HTTP client's exception. *)
Lemma requests_post_outcome (request : event) (w : world) :
  exists w',
    requests_post request w = (Ok tt, w')
    \/ requests_post request w = (Raise RequestException, w').
Proof.
  unfold requests_post. destruct (telegram w) as [|[|] posts]; eauto.
Qed.

Lemma send_text_outcome (message : str) (w : world) :
  exists w',
    send_text message w = (Ok tt, w')
    \/ send_text message w = (Raise RequestException, w').
Proof.
  unfold send_text. destruct (4000 <? length message)%nat.
  - destruct (post_each_prefix (chunks message) w) as (k & w' & H & _).
    exists w'. exact H.
  - apply requests_post_outcome.
Qed.

Lemma send_text_returns_when_up (message : str) (w : world) :
  telegram_up w -> exists w', send_text message w = (Ok tt, w').
Proof.
  intros Hup. unfold send_text. destruct (4000 <? length message)%nat.
  - destruct (post_each_up (chunks message) w Hup) as (w' & E & _). eauto.
  - destruct (requests_post_up (SendMessage message) w Hup) as (w' & E & _).
    eauto.
Qed.

(** The text branch never raises. *)
Lemma send_message_to_telegram_text_returns (message : str) (w : world) :
  exists b w', send_message_to_telegram_text message w = (Ok b, w').
Proof.
  unfold send_message_to_telegram_text, try_except, bind.
  destruct (send_text_outcome message w) as (w' & [E|E]); rewrite E; simpl;
    eexists _, _; reflexivity.
Qed.

(** X7. [send_message_to_telegram] never raises: whatever Telegram does,
    it returns a boolean, and that boolean is [True] when no POST to
    Telegram raises. *)
Theorem send_message_to_telegram_never_raises :
  forall (message : str) (photo_path : option path) (w : world),
    exists b w',
      send_message_to_telegram message photo_path w = (Ok b, w')
      /\ (telegram_up w -> b = true).
Proof.
  intros message photo_path w.
  unfold send_message_to_telegram, try_except, bind, photo_available,
    os_path_exists, ret.
  assert (Htext :
    exists b w',
      match
        match send_text message w with
        | (Ok _, w1) =>
            match log INFO "Mensaje enviado a Telegram correctamente" w1 with
            | (Ok _, w2) => (Ok true, w2)
            | (Raise e, w2) => (Raise e, w2)
            end
        | (Raise e, w1) => (Raise e, w1)
        end
      with
      | (Ok a, w') => (Ok a, w')
      | (Raise e, w') =>
          if is_Exception e
          then
            match log ERROR "Error al enviar mensaje a Telegram" w' with
            | (Ok _, w2) => (Ok false, w2)
            | (Raise e0, w2) => (Raise e0, w2)
            end
          else (Raise e, w')
      end = (Ok b, w')
      /\ (telegram_up w -> b = true)).
  { destruct (send_text_outcome message w) as (w1 & [E|E]).
    - rewrite E. simpl. eexists _, _. split; [reflexivity|auto].
    - rewrite E. simpl. eexists _, _. split; [reflexivity|].
      intros Hup.
      destruct (send_text_returns_when_up message w Hup) as (w2 & E2).
      congruence. }
  destruct photo_path as [p|]; [|exact Htext].
  destruct (existsb (path_eqb p) (files w)); [|exact Htext].
  destruct (requests_post_outcome (SendPhoto p (slice message 0 1024)) w)
    as (w1 & [E|E]); rewrite E.
  - destruct (1024 <? length message)%nat.
    + destruct (send_message_to_telegram_text_returns (skipn 1024 message) w1)
        as (b & w2 & E2).
      rewrite E2. simpl. eexists _, _. split; [reflexivity|auto].
    + simpl. eexists _, _. split; [reflexivity|auto].
  - simpl. eexists _, _. split; [reflexivity|].
    intros Hup.
    destruct (requests_post_up (SendPhoto p (slice message 0 1024)) w Hup)
      as (w2 & E2 & _).
    congruence.
Qed.

Lemma slice_from_0 (A : Type) (s : list A) (n : nat) :
  slice s 0 n = firstn n s.
Proof. unfold slice. now rewrite Nat.sub_0_r. Qed.

(** The text branch when the first POST raises: one message is attempted,
    the failure is logged and the function returns [False]. *)
Lemma text_send_fails_at_first_post (message : str) (w : world)
    (posts : list bool) :
  message <> [] ->
  telegram w = false :: posts ->
  exists x w',
    send_message_to_telegram_text message w = (Ok false, w')
    /\ trace w'
       = trace w
         ++ [SendMessage x; Log ERROR "Error al enviar mensaje a Telegram"].
Proof.
  intros Hne Ht.
  unfold send_message_to_telegram_text, try_except, bind, send_text.
  destruct (4000 <? length message)%nat.
  - destruct (chunks message) as [|c cs] eqn:Ec.
    + exfalso. apply Hne.
      destruct (chunks_tile message) as (Hc & _ & _).
      rewrite Ec in Hc. simpl in Hc. now symmetry.
    + cbn [for_each]. unfold bind, requests_post. rewrite Ht. simpl.
      eexists _, _. split; [reflexivity|]. simpl.
      now rewrite <- app_assoc.
  - unfold requests_post. rewrite Ht. simpl.
    eexists _, _. split; [reflexivity|]. simpl.
    now rewrite <- app_assoc.
Qed.

(** X8. The result of an image-send does not cover the follow-up text:
    when the photo is posted and the first POST of the follow-up raises,
    the rest of the message is not delivered, the failure is logged, and
    [send_message_to_telegram] still returns [True]. *)
Theorem send_message_to_telegram_hides_follow_up_failure :
  forall (message : str) (p : path) (w : world) (posts : list bool),
    In p (files w) ->
    (1024 < length message)%nat ->
    telegram w = true :: false :: posts ->
    fst (send_message_to_telegram message (Some p) w) = Ok true
    /\ filter (fun e => match e with Log _ _ => true | _ => false end)
         (events_of (send_message_to_telegram message (Some p)) w)
       = [Log ERROR "Error al enviar mensaje a Telegram";
          Log INFO "Mensaje enviado a Telegram correctamente"]
    /\ sent_captions (events_of (send_message_to_telegram message (Some p)) w)
       = [firstn 1024 message]
    /\ length (sent_texts
                 (events_of (send_message_to_telegram message (Some p)) w))
       = 1%nat.
Proof.
  intros message p w posts Hp Hlen Ht.
  assert (Hrest : skipn 1024 message <> []).
  { intros E. apply (f_equal (@length _)) in E.
    rewrite length_skipn in E. simpl in E. apply Nat.sub_0_le in E.
    exact (Nat.lt_irrefl _ (Nat.lt_le_trans _ _ _ Hlen E)). }
  apply Nat.ltb_lt in Hlen.
  assert (Hrun :
    exists x w3,
      send_message_to_telegram message (Some p) w = (Ok true, w3)
      /\ trace w3
         = trace w
           ++ [SendPhoto p (firstn 1024 message); SendMessage x;
               Log ERROR "Error al enviar mensaje a Telegram";
               Log INFO "Mensaje enviado a Telegram correctamente"]).
  { unfold send_message_to_telegram, try_except, bind,
      photo_available, os_path_exists.
    rewrite (exists_on_disk p w Hp), slice_from_0.
    remember (firstn 1024 message) as caption eqn:Ecap.
    remember (skipn 1024 message) as rest eqn:Erest.
    unfold requests_post. rewrite Ht, Hlen.
    match goal with
    | |- context [send_message_to_telegram_text rest ?w1] =>
        destruct (text_send_fails_at_first_post rest w1 posts Hrest eq_refl)
          as (x & w2 & E & T)
    end.
    rewrite E. cbn [fst snd]. unfold log, ret, emit.
    eexists x, _. split; [reflexivity|]. cbn [trace]. rewrite T.
    cbn [trace]. repeat rewrite <- app_assoc. reflexivity. }
  destruct Hrun as (x & w3 & E & T).
  unfold events_of. rewrite E. cbn [fst snd].
  rewrite T, skipn_app_exact. repeat split.
Qed.

Lemma path_eqb_eq (p q : path) : path_eqb p q = true -> p = q.
Proof.
  unfold path_eqb, str_eqb. destruct p as [d f], q as [d' f']; simpl.
  destruct (list_eq_dec N.eq_dec d d'); [|discriminate].
  destruct (list_eq_dec N.eq_dec f f'); [|discriminate].
  intros _. congruence.
Qed.

Lemma missing_on_disk (p : path) (w : world) :
  ~ In p (files w) -> existsb (path_eqb p) (files w) = false.
Proof.
  intros H. destruct (existsb (path_eqb p) (files w)) eqn:E; [|reflexivity].
  apply existsb_exists in E. destruct E as (q & Hq & Eq).
  apply path_eqb_eq in Eq. subst q. contradiction.
Qed.

(** X9. Within the limits nothing is split: when no POST raises, a text of
    at most 4000 characters goes out as one message, unchanged, and a
    photo with a message of at most 1024 characters goes out with the
    whole message as caption and no follow-up.  A photo path that is not
    on disk is ignored: the call behaves as the call without photo. *)
Theorem messages_within_limits_are_not_split :
  forall (message : str) (w : world),
    telegram_up w ->
    ((length message <= 4000)%nat ->
     events_of (send_message_to_telegram message None) w
     = [SendMessage message;
        Log INFO "Mensaje enviado a Telegram correctamente"])
    /\ (forall p, In p (files w) -> (length message <= 1024)%nat ->
          events_of (send_message_to_telegram message (Some p)) w
          = [SendPhoto p message;
             Log INFO "Mensaje enviado a Telegram correctamente"])
    /\ (forall p, ~ In p (files w) ->
          send_message_to_telegram message (Some p) w
          = send_message_to_telegram message None w).
Proof.
  intros message w Hup. split; [|split].
  - intros Hlen. rewrite send_without_photo.
    destruct (send_short_text_up message w Hlen Hup) as (w' & E & T).
    unfold events_of. rewrite E. cbn [snd]. rewrite T.
    apply skipn_app_exact.
  - intros p Hp Hlen.
    assert (Hcap : slice message 0 1024 = message)
      by (rewrite slice_from_0; now apply firstn_all2).
    apply Nat.ltb_ge in Hlen.
    unfold events_of, send_message_to_telegram, try_except, bind,
      photo_available, os_path_exists.
    rewrite (exists_on_disk p w Hp), Hcap, Hlen.
    destruct (requests_post_up (SendPhoto p message) w Hup)
      as (w1 & E1 & T1 & _ & _).
    rewrite E1. unfold ret, log, emit. cbn [fst snd trace].
    rewrite T1, <- app_assoc. apply skipn_app_exact.
  - intros p Hp.
    unfold send_message_to_telegram, try_except, bind, photo_available,
      os_path_exists, ret.
    rewrite (missing_on_disk p w Hp). reflexivity.
Qed.

Lemma messages_within_limits_witness :
  events_of (send_message_to_telegram (lit "hola") None)
    (initial [] [] [] true)
  = [SendMessage (lit "hola");
     Log INFO "Mensaje enviado a Telegram correctamente"].
Proof.
  apply (messages_within_limits_are_not_split (lit "hola")
           (initial [] [] [] true)).
  - constructor.
  - apply Nat.leb_le. reflexivity.
Defined.

Lemma send_message_to_telegram_hides_follow_up_witness :
  fst (send_message_to_telegram (repeat 97%N 1500)
         (Some {| dir := lit "data"; file_name := lit "chart.png" |})
         {| trace := []; api := []; telegram := [true; false]; signals := [];
            disk_ok := true;
            files := [{| dir := lit "data"; file_name := lit "chart.png" |}];
            clock := 0 |})
  = Ok true.
Proof.
  apply (send_message_to_telegram_hides_follow_up_failure (repeat 97%N 1500)
           {| dir := lit "data"; file_name := lit "chart.png" |}
           {| trace := []; api := []; telegram := [true; false];
              signals := []; disk_ok := true;
              files := [{| dir := lit "data"; file_name := lit "chart.png" |}];
              clock := 0 |}
           []).
  - left; reflexivity.
  - apply Nat.ltb_lt; vm_compute; reflexivity.
  - reflexivity.
Defined.

Section ChunkSizes.

Variable A : Type.

Lemma slice_length (s : list A) (i step : nat) :
  length (slice s i (i + step)) = Nat.min step (length s - i).
Proof. now rewrite slice_step, length_firstn, length_skipn. Qed.

(** Slices taken at starts that all lie inside the string: none is empty,
    and all but the last are full. *)
Lemma slices_sizes (s : list A) (step count start : nat) :
  (0 < step)%nat ->
  (start + count * step < length s + step)%nat ->
  let pieces :=
    map (fun i => slice s i (i + step)) (range_from start step count) in
  Forall (fun c => (1 <= length c)%nat) pieces
  /\ forall k, (S k < count)%nat -> length (nth k pieces []) = step.
Proof.
  intros Hs. revert start; induction count as [|c IH]; intros start Hb; simpl.
  - split; [constructor|]. intros k Hk. inversion Hk.
  - simpl in Hb. destruct (IH (start + step)%nat) as [Hne Hfull]; [lia|].
    split.
    + constructor; [|exact Hne]. rewrite slice_length. lia.
    + intros [|k] Hk.
      * rewrite slice_length. destruct c as [|c]; [lia|]. simpl in Hb. lia.
      * apply Hfull. lia.
Qed.

End ChunkSizes.

(** X10. The chunks of a text: there are [ceil(len / 4000)] of them, none
    is empty, and every chunk but the last has exactly 4000 characters. *)
Theorem chunks_are_full_but_the_last :
  forall message : str,
    length (chunks message) = ((length message + 3999) / 4000)%nat
    /\ Forall (fun chunk => (1 <= length chunk)%nat) (chunks message)
    /\ (forall k, (S k < length (chunks message))%nat ->
                  length (nth k (chunks message) []) = 4000%nat).
Proof.
  intros message.
  assert (Hs : (0 < 4000)%nat) by (apply Nat.ltb_lt; reflexivity).
  destruct (chunks_tile message) as (_ & _ & Hn).
  split; [exact Hn|].
  assert (Hb : (0 + (length message + (4000 - 1)) / 4000 * 4000
                < length message + 4000)%nat).
  { pose proof (Nat.div_mod_eq (length message + (4000 - 1)) 4000) as E.
    assert (E' : (4000 - 1 = 3999)%nat) by reflexivity.
    rewrite E' in *. lia. }
  destruct (slices_sizes _ message 4000
              ((length message + (4000 - 1)) / 4000) 0 Hs Hb) as [Hne Hfull].
  unfold chunks, range in *. rewrite Nat.sub_0_r in *.
  split; [exact Hne|].
  intros k Hk. apply Hfull. rewrite Hn in Hk. exact Hk.
Qed.

(* ================================================================== *)
(** * Further facts: the scheduler loop *)
(* ================================================================== *)

Lemma bind_ok (A B : Type) (m : M A) (k : A -> M B) (w w' : world) (a : A) :
  m w = (Ok a, w') -> bind m k w = k a w'.
Proof. intros H. unfold bind. now rewrite H. Qed.

Lemma bind_raise (A B : Type) (m : M A) (k : A -> M B) (w w' : world)
    (e : exn) :
  m w = (Raise e, w') -> bind m k w = (Raise e, w').
Proof. intros H. unfold bind. now rewrite H. Qed.

(** [time.sleep] returns or is interrupted. *)
Lemma time_sleep_outcome (seconds : Z) (w : world) :
  exists w',
    time_sleep seconds w = (Ok tt, w')
    \/ time_sleep seconds w = (Raise KeyboardInterrupt, w').
Proof.
  unfold time_sleep. destruct (signals w) as [|[|] sigs]; eauto.
Qed.

(** X11. Inside the loop of [main] no [Exception] is fatal: whatever the
    cycles meet, for any number of turns, the only exception that can leave
    the loop is [KeyboardInterrupt].  It does leave it when the user
    interrupts the 60-second sleep that follows a failed cycle: [main]
    then ends on the exception, not on its message of a clean stop. *)
Theorem main_loop_lets_only_the_interrupt_out :
  forall (cfg : config) (plat : platform) (n : nat) (w : world),
    (forall e, fst (main_loop cfg plat n w) = Raise e ->
               e = KeyboardInterrupt)
    /\ (forall e w' sigs,
          (log INFO "Esperando hasta la próxima actualización" ;;;
           time_sleep (FETCH_INTERVAL cfg) ;;;
           process_crypto_data cfg plat) w = (Raise e, w') ->
          is_Exception e = true ->
          signals w' = true :: sigs ->
          fst (main_loop cfg plat (S n) w) = Raise KeyboardInterrupt
          /\ trace (snd (main_loop cfg plat (S n) w))
             = trace w' ++ [Log ERROR "Error en el bucle principal"; Sleep 60]).
Proof.
  intros cfg plat n w. split.
  - revert w. induction n as [|n IH]; intros w e H.
    + discriminate.
    + cbn [main_loop] in H.
      destruct ((log INFO "Esperando hasta la próxima actualización" ;;;
                 time_sleep (FETCH_INTERVAL cfg) ;;;
                 process_crypto_data cfg plat) w) as [[[]|e'] w'] eqn:E.
      * exact (IH w' e H).
      * destruct e'; try discriminate;
          unfold bind, log in H;
          match type of H with
          | context [time_sleep 60 ?w1] =>
              destruct (time_sleep_outcome 60 w1) as (w2 & [E2|E2]);
                rewrite E2 in H
          end;
          try exact (IH _ e H);
          inversion H; reflexivity.
  - intros e w' sigs E He Hs.
    rewrite (main_loop_backs_off cfg plat n w w' e E He).
    unfold bind, log, time_sleep. cbn [emit signals]. rewrite Hs.
    cbn [fst snd trace]. split; [reflexivity|].
    unfold emit. cbn [trace]. now rewrite <- app_assoc.
Qed.

(** The interrupted back-off on the sample data: the second cycle fails on
    the asset without price, and the user interrupts the sleep of 60
    seconds. *)
Example interrupt_during_back_off :
  fst (main_loop Sample.cfg Sample.plat 3
         (initial [Sample.http 200 Sample.payload_with_gap] [] [false; true]
                  true))
  = Raise KeyboardInterrupt.
Proof. vm_compute. reflexivity. Qed.

(* ================================================================== *)
(** * Further facts: one cycle *)
(* ================================================================== *)

(** A successful fetch, step by step. *)
Lemma get_crypto_data_succeeds (cfg : config) (w : world) (r : response)
    (rest : list (option response)) (data : list coin) :
  api w = Some r :: rest ->
  status_code r = 200%Z ->
  json_data r = Ok data ->
  exists w',
    get_crypto_data cfg w = (Ok (Some data), w')
    /\ trace w'
       = trace w ++ [HttpGet (TOP_N_COINS cfg);
                     Log INFO "Datos obtenidos correctamente"]
    /\ telegram w' = telegram w /\ signals w' = signals w
    /\ disk_ok w' = disk_ok w /\ files w' = files w /\ clock w' = clock w.
Proof.
  intros Ha Hs Hj.
  unfold get_crypto_data, try_except, bind, requests_get, lift, log, ret.
  rewrite Ha. cbn [fst snd]. apply Z.eqb_eq in Hs. rewrite Hs, Hj.
  eexists. split; [reflexivity|]. unfold emit. cbn.
  rewrite <- app_assoc. repeat split.
Qed.

(** X12. The raw archive is not best-effort: when the fetch succeeds and
    the file under [DATA_DIR] cannot be written, [save_raw_data] raises
    [OSError] and the cycle stops there, before any insert in the database
    and any notification. *)
Theorem raw_archive_failure_aborts_the_cycle :
  forall (cfg : config) (plat : platform) (w : world) (r : response)
         (rest : list (option response)) (c : coin) (data : list coin),
    api w = Some r :: rest ->
    status_code r = 200%Z ->
    json_data r = Ok (c :: data) ->
    disk_ok w = false ->
    fst (process_crypto_data cfg plat w) = Raise OSError
    /\ events_of (process_crypto_data cfg plat) w
       = [HttpGet (TOP_N_COINS cfg); Log INFO "Datos obtenidos correctamente"].
Proof.
  intros cfg plat w r rest c data Ha Hs Hj Hd.
  destruct (get_crypto_data_succeeds cfg w r rest (c :: data) Ha Hs Hj)
    as (w1 & E1 & T1 & _ & _ & D1 & _ & _).
  assert (Hrun : process_crypto_data cfg plat w = (Raise OSError, w1)).
  { unfold process_crypto_data. rewrite (bind_ok _ _ _ _ w w1 _ E1).
    cbn [not_]. apply bind_raise.
    unfold save_raw_data. cbn [not_]. unfold bind, datetime_now, write_file.
    rewrite D1, Hd. reflexivity. }
  unfold events_of. rewrite Hrun. cbn [fst snd]. split; [reflexivity|].
  rewrite T1. apply skipn_app_exact.
Qed.

Lemma raw_archive_failure_witness :
  fst (process_crypto_data Sample.cfg Sample.plat
         (initial [Sample.http 200 Sample.payload] [] [] false))
  = Raise OSError.
Proof.
  apply (raw_archive_failure_aborts_the_cycle Sample.cfg Sample.plat
           (initial [Sample.http 200 Sample.payload] [] [] false)
           {| status_code := 200; json_data := Ok Sample.payload |}
           [] Sample.bitcoin [Sample.ethereum]);
    reflexivity.
Defined.

(** X13. [generate_charts] never raises.  It returns a path only for a
    non-empty snapshot on a writable disk, and the file of that path then
    exists; otherwise it returns [None] and creates no file. *)
Theorem generate_charts_never_raises :
  forall (cfg : config) (plat : platform) (df : option dataframe)
         (results : analysis_results) (w : world),
    exists r w',
      generate_charts cfg plat df results w = (Ok r, w')
      /\ (forall p, r = Some p ->
            In p (files w') /\ dir p = DATA_DIR cfg
            /\ disk_ok w = true /\ empty df = false)
      /\ (r = None ->
          files w' = files w /\ (empty df = true \/ disk_ok w = false))
      /\ telegram w' = telegram w.
Proof.
  intros cfg plat df results w.
  unfold generate_charts. destruct (empty df) eqn:Ee.
  - exists None, w. unfold ret. repeat split; auto; discriminate.
  - unfold bind, datetime_now, try_except, write_file, log, ret.
    destruct (disk_ok w) eqn:Ed; cbn.
    + eexists _, _. split; [reflexivity|]. cbn. repeat split.
      * inversion H; subst. now left.
      * inversion H; subst. reflexivity.
      * discriminate.
      * discriminate.
    + eexists _, _. split; [reflexivity|]. cbn. repeat split; auto.
      all: discriminate.
Qed.

(* ================================================================== *)
(** * Further facts: the two other scripts *)
(* ================================================================== *)

Lemma CryptoBot_cycle_warns_witness :
  filter is_notification
    (events_of (CryptoBot.cycle Sample.plat)
       (initial [Sample.http 500 []] [] [] true))
  = [SendMessage (lit "⚠️ Error obteniendo datos de CoinMarketCap.")].
Proof.
  apply (CryptoBot_cycle_warns Sample.plat
           (initial [Sample.http 500 []] [] [] true)
           {| status_code := 500; json_data := Ok [] |} []).
  - reflexivity.
  - discriminate.
Defined.

Lemma testcryptodata_main_warns_witness :
  filter is_notification
    (events_of (testcryptodata.main Sample.cfg Sample.plat)
       (initial [None] [] [] true))
  = [SendMessage (lit "⚠️ No se pudieron obtener datos de CoinMarketCap.")].
Proof.
  apply (testcryptodata_main_warns Sample.cfg Sample.plat
           (initial [None] [] [] true)).
  exact I.
Defined.

(** X14. The loop of [CryptoBot.py] has no failure isolation.  When the
    HTTP client raises, the exception leaves [main] on the spot, with no
    notification and no sleep; and when the payload lacks a key that
    [format_crypto_message] reads, the [KeyError] leaves [main] the same
    way. *)
Theorem CryptoBot_main_stops_on_the_first_exception :
  forall (plat : platform) (n : nat) (w : world),
    ((forall r rest, api w <> Some r :: rest) ->
     fst (CryptoBot.main plat (S n) w) = Raise RequestException
     /\ events_of (CryptoBot.main plat (S n)) w = [HttpGet 5])
    /\ (forall r rest c data e,
          api w = Some r :: rest ->
          status_code r = 200%Z ->
          json_data r = Ok (c :: data) ->
          CryptoBot.format_crypto_message plat (c :: data) = Raise e ->
          fst (CryptoBot.main plat (S n) w) = Raise e
          /\ events_of (CryptoBot.main plat (S n)) w = [HttpGet 5]).
Proof.
  intros plat n w. split.
  - intros Hno.
    assert (Hrun : exists w', CryptoBot.main plat (S n) w
                              = (Raise RequestException, w')
                              /\ trace w' = trace w ++ [HttpGet 5]).
    { assert (Hget : exists w', requests_get 5 w = (Raise RequestException, w')
                                /\ trace w' = trace w ++ [HttpGet 5]).
      { unfold requests_get.
        destruct (api w) as [|[r|] rest] eqn:Ha.
        - eexists. split; reflexivity.
        - exfalso. exact (Hno r rest eq_refl).
        - eexists. split; reflexivity. }
      destruct Hget as (w' & Eg & Tg). exists w'. split; [|exact Tg].
      cbn [CryptoBot.main]. unfold CryptoBot.cycle.
      apply bind_raise. apply bind_raise.
      unfold CryptoBot.get_crypto_data. apply bind_raise. exact Eg. }
    destruct Hrun as (w' & E & T). unfold events_of. rewrite E.
    cbn [fst snd]. split; [reflexivity|]. rewrite T.
    apply skipn_app_exact.
  - intros r rest c data e Ha Hs Hj Hf.
    assert (Hrun : exists w', CryptoBot.main plat (S n) w = (Raise e, w')
                              /\ trace w' = trace w ++ [HttpGet 5]).
    { assert (Hget : exists w1,
                CryptoBot.get_crypto_data w = (Ok (Some (c :: data)), w1)
                /\ trace w1 = trace w ++ [HttpGet 5]).
      { unfold CryptoBot.get_crypto_data, bind, requests_get, lift, ret.
        rewrite Ha. apply Z.eqb_eq in Hs. rewrite Hs, Hj.
        eexists. split; reflexivity. }
      destruct Hget as (w1 & Eg & Tg). exists w1. split; [|exact Tg].
      cbn [CryptoBot.main]. unfold CryptoBot.cycle.
      apply bind_raise. rewrite (bind_ok _ _ _ _ w w1 _ Eg).
      cbn [not_ items]. apply bind_raise. apply bind_raise.
      unfold lift. now rewrite Hf. }
    destruct Hrun as (w' & E & T). unfold events_of. rewrite E.
    cbn [fst snd]. split; [reflexivity|]. rewrite T.
    apply skipn_app_exact.
Qed.

(** The second case of X14 on the sample data. *)
Example CryptoBot_main_on_payload_with_gap :
  fst (CryptoBot.main Sample.plat 5
         (initial [Sample.http 200 Sample.payload_with_gap] [] [] true))
  = Raise (KeyError "price").
Proof. vm_compute. reflexivity. Qed.

(* ================================================================== *)
(** * Further facts: the analysis is persisted *)
(* ================================================================== *)

Lemma for_each_do (A : Type) (f : A -> event) (l : list A) (w : world) :
  exists w',
    for_each l (fun r => do (f r)) w = (Ok tt, w')
    /\ trace w' = trace w ++ map f l.
Proof.
  revert w; induction l as [|x l IH]; intros w; simpl.
  - exists w. unfold ret. now rewrite app_nil_r.
  - unfold bind, do. destruct (IH (emit (f x) w)) as (w' & E & T).
    exists w'. split; [exact E|]. rewrite T. simpl.
    now rewrite <- app_assoc.
Qed.

Lemma analysis_rows_app (t u : list event) :
  analysis_rows (t ++ u) = analysis_rows t ++ analysis_rows u.
Proof.
  induction t as [|e t IH]; simpl; auto.
  destruct e; simpl; auto. now rewrite IH.
Qed.

Lemma analysis_rows_map (A : Type) (analysis_type : string) (g : A -> str)
    (l : list A) :
  analysis_rows (map (fun r => DbAnalysis analysis_type (g r)) l)
  = map (fun r => (analysis_type, g r)) l.
Proof. induction l as [|x l IH]; simpl; auto. now rewrite IH. Qed.

Lemma analysis_rows_are_not_notifications (A : Type) (analysis_type : string)
    (g : A -> str) (l : list A) :
  filter is_notification (map (fun r => DbAnalysis analysis_type (g r)) l)
  = [].
Proof. induction l as [|x l IH]; simpl; auto. Qed.

(** [save_analysis_results] on the six views: one row per entry, view by
    view, then the commit. *)
Lemma save_analysis_results_trace (v : views) (w : world) :
  exists w',
    save_analysis_results (Some v) w = (Ok tt, w')
    /\ trace w'
       = trace w
         ++ map (fun r => DbAnalysis "top_gainers" (fst r)) (top_gainers v)
         ++ map (fun r => DbAnalysis "top_losers" (fst r)) (top_losers v)
         ++ map (fun r => DbAnalysis "high_liquidity" (fst r))
                (high_liquidity v)
         ++ map (fun r => DbAnalysis "high_volatility" (fst r))
                (high_volatility v)
         ++ map (fun r => DbAnalysis "strong_trends" (fst (fst r)))
                (strong_trends v)
         ++ map (fun r => DbAnalysis "market_dominance" (fst r))
                (market_dominance v)
         ++ [DbCommit].
Proof.
  unfold save_analysis_results, try_except.
  destruct (for_each_do _ (fun r => DbAnalysis "top_gainers" (fst r))
              (top_gainers v) w) as (w1 & E1 & T1).
  destruct (for_each_do _ (fun r => DbAnalysis "top_losers" (fst r))
              (top_losers v) w1) as (w2 & E2 & T2).
  destruct (for_each_do _ (fun r => DbAnalysis "high_liquidity" (fst r))
              (high_liquidity v) w2) as (w3 & E3 & T3).
  destruct (for_each_do _ (fun r => DbAnalysis "high_volatility" (fst r))
              (high_volatility v) w3) as (w4 & E4 & T4).
  destruct (for_each_do _ (fun r => DbAnalysis "strong_trends" (fst (fst r)))
              (strong_trends v) w4) as (w5 & E5 & T5).
  destruct (for_each_do _ (fun r => DbAnalysis "market_dominance" (fst r))
              (market_dominance v) w5) as (w6 & E6 & T6).
  rewrite (bind_ok _ _ _ _ w w6 tt).
  - unfold do. eexists. split; [reflexivity|]. unfold emit. cbn [trace].
    rewrite T6, T5, T4, T3, T2, T1. repeat rewrite <- app_assoc.
    reflexivity.
  - rewrite (bind_ok _ _ _ _ w w1 tt E1).
    rewrite (bind_ok _ _ _ _ w1 w2 tt E2).
    rewrite (bind_ok _ _ _ _ w2 w3 tt E3).
    rewrite (bind_ok _ _ _ _ w3 w4 tt E4).
    rewrite (bind_ok _ _ _ _ w4 w5 tt E5).
    exact E6.
Qed.



(* ================================================================== *)
(** * Further facts: the order of the effects of a cycle *)
(* ================================================================== *)

Section EmitsFacts.

Variable P : event -> bool.

Lemma emits_ret (A : Type) (a : A) : emits_only P (ret a).
Proof. intros w. exists []. simpl. now rewrite app_nil_r. Qed.

Lemma emits_lift (A : Type) (r : result A) : emits_only P (lift r).
Proof. intros w. exists []. simpl. now rewrite app_nil_r. Qed.

Lemma emits_datetime_now : emits_only P datetime_now.
Proof. intros w. exists []. simpl. now rewrite app_nil_r. Qed.

Lemma emits_os_path_exists (p : path) : emits_only P (os_path_exists p).
Proof. intros w. exists []. simpl. now rewrite app_nil_r. Qed.

Lemma emits_do (e : event) : P e = true -> emits_only P (do e).
Proof. intros H w. exists [e]. simpl. now rewrite H. Qed.

Lemma emits_log (lvl : level) (site : string) :
  P (Log lvl site) = true -> emits_only P (log lvl site).
Proof. intros H w. exists [Log lvl site]. simpl. now rewrite H. Qed.

Lemma emits_requests_get (limit : Z) :
  P (HttpGet limit) = true -> emits_only P (requests_get limit).
Proof.
  intros H w. exists [HttpGet limit]. unfold requests_get.
  destruct (api w) as [|[r|] rest]; simpl; now rewrite H.
Qed.

Lemma emits_requests_post (request : event) :
  P request = true -> emits_only P (requests_post request).
Proof.
  intros H w. exists [request]. unfold requests_post.
  destruct (telegram w) as [|[|] rest]; simpl; now rewrite H.
Qed.

Lemma emits_write_file (written : event) (p : path) :
  P written = true -> emits_only P (write_file written p).
Proof.
  intros H w. unfold write_file. destruct (disk_ok w).
  - exists [written]. simpl. now rewrite H.
  - exists []. simpl. now rewrite app_nil_r.
Qed.

Lemma emits_bind (A B : Type) (m : M A) (k : A -> M B) :
  emits_only P m -> (forall a, emits_only P (k a)) ->
  emits_only P (bind m k).
Proof.
  intros Hm Hk w. unfold bind. destruct (Hm w) as (t1 & T1 & F1).
  destruct (m w) as [[a|e] w1]; simpl in T1.
  - destruct (Hk a w1) as (t2 & T2 & F2).
    exists (t1 ++ t2). rewrite T2, T1, <- app_assoc, forallb_app, F1, F2.
    auto.
  - exists t1. simpl. auto.
Qed.

Lemma emits_try_except (A : Type) (body : M A) (handler : exn -> M A) :
  emits_only P body -> (forall e, emits_only P (handler e)) ->
  emits_only P (try_except body handler).
Proof.
  intros Hb Hh w. unfold try_except. destruct (Hb w) as (t1 & T1 & F1).
  destruct (body w) as [[a|e] w1]; simpl in T1.
  - exists t1. simpl. auto.
  - destruct (is_Exception e).
    + destruct (Hh e w1) as (t2 & T2 & F2).
      exists (t1 ++ t2). rewrite T2, T1, <- app_assoc, forallb_app, F1, F2.
      auto.
    + exists t1. simpl. auto.
Qed.

Lemma emits_for_each (A : Type) (l : list A) (body : A -> M unit) :
  (forall x, emits_only P (body x)) -> emits_only P (for_each l body).
Proof.
  intros H. induction l as [|x l IH]; simpl.
  - apply emits_ret.
  - apply emits_bind; [apply H | intros _; exact IH].
Qed.

End EmitsFacts.

Create HintDb emits.

#[local] Hint Resolve emits_ret emits_lift emits_datetime_now
  emits_os_path_exists emits_do emits_log emits_requests_get
  emits_requests_post emits_write_file emits_bind emits_try_except
  emits_for_each : emits.

(** The steps of a cycle before the notifier attempt no notification. *)
Lemma get_crypto_data_is_silent (cfg : config) :
  emits_only (fun e => negb (is_notification e)) (get_crypto_data cfg).
Proof.
  unfold get_crypto_data. apply emits_try_except.
  - apply emits_bind; [now apply emits_requests_get|].
    intros r. destruct (status_code r =? 200)%Z; auto 10 with emits.
  - intros e. destruct e; auto 10 with emits.
Qed.

Lemma save_raw_data_is_silent (cfg : config) (plat : platform)
    (data : option (list coin)) :
  emits_only (fun e => negb (is_notification e)) (save_raw_data cfg plat data).
Proof.
  unfold save_raw_data. destruct (not_ data); auto 10 with emits.
Qed.

Lemma save_data_to_db_is_silent (data : option (list coin)) :
  emits_only (fun e => negb (is_notification e)) (save_data_to_db data).
Proof.
  unfold save_data_to_db. destruct (not_ data); auto 10 with emits.
Qed.

Lemma analyze_market_data_is_silent (df : option dataframe) :
  emits_only (fun e => negb (is_notification e)) (analyze_market_data df).
Proof.
  unfold analyze_market_data. destruct (empty df); [auto with emits|].
  apply emits_bind; [|auto with emits].
  unfold save_analysis_results. apply emits_try_except; [|auto with emits].
  repeat (apply emits_bind; [|intros _]);
    try (apply emits_for_each; intros r); auto with emits.
Qed.

Lemma generate_charts_is_silent (cfg : config) (plat : platform)
    (df : option dataframe) (results : analysis_results) :
  emits_only (fun e => negb (is_notification e))
    (generate_charts cfg plat df results).
Proof.
  unfold generate_charts. destruct (empty df); auto 10 with emits.
Qed.

Lemma format_market_overview_is_silent (plat : platform)
    (df : option dataframe) :
  emits_only (fun e => negb (is_notification e))
    (format_market_overview plat df).
Proof.
  unfold format_market_overview. destruct (empty df); auto 10 with emits.
Qed.

(** The notifier writes nothing to the store. *)
Lemma send_text_writes_nothing (message : str) :
  emits_only (fun e => negb (is_store_write e)) (send_text message).
Proof.
  unfold send_text. destruct (4000 <? length message)%nat;
    auto 10 with emits.
Qed.

Lemma send_message_to_telegram_writes_nothing (message : str)
    (photo_path : option path) :
  emits_only (fun e => negb (is_store_write e))
    (send_message_to_telegram message photo_path).
Proof.
  unfold send_message_to_telegram. apply emits_try_except;
    [|auto with emits].
  apply emits_bind.
  - unfold photo_available. destruct photo_path; auto with emits.
  - intros with_photo. apply emits_bind; [|auto with emits].
    destruct with_photo; destruct photo_path as [p|];
      try apply send_text_writes_nothing.
    apply emits_bind; [now apply emits_requests_post|]. intros _.
    destruct (1024 <? length message)%nat; [|auto with emits].
    apply emits_bind; [|auto with emits].
    unfold send_message_to_telegram_text. apply emits_try_except;
      [|auto with emits].
    apply emits_bind; [apply send_text_writes_nothing | auto with emits].
Qed.

Lemma keeps_order_of_notifier (A : Type) (m : M A) :
  emits_only (fun e => negb (is_store_write e)) m -> keeps_order m.
Proof.
  intros H w. destruct (H w) as (t & T & F).
  exists t. split; [exact T|]. exists [], t. auto.
Qed.

Lemma keeps_order_after (A B : Type) (m : M A) (k : A -> M B) :
  emits_only (fun e => negb (is_notification e)) m ->
  (forall a, keeps_order (k a)) ->
  keeps_order (bind m k).
Proof.
  intros Hm Hk w. unfold bind. destruct (Hm w) as (t1 & T1 & F1).
  destruct (m w) as [[a|e] w1]; simpl in T1.
  - destruct (Hk a w1) as (t & T & (u1 & u2 & -> & G1 & G2)).
    exists (t1 ++ u1 ++ u2). rewrite T, T1, <- app_assoc.
    split; [reflexivity|]. exists (t1 ++ u1), u2.
    rewrite <- app_assoc, forallb_app, F1, G1. auto.
  - exists t1. simpl. split; [exact T1|]. exists t1, [].
    rewrite app_nil_r. auto.
Qed.

(** X16. In every world, whatever fails on the way, the events of a cycle
    put every write to the store (raw file, rows of the two tables) before
    every notification: nothing is stored once the notifier has been
    called. *)
Theorem store_writes_precede_notifications :
  forall (cfg : config) (plat : platform) (w : world),
    store_then_notify (events_of (process_crypto_data cfg plat) w).
Proof.
  intros cfg plat w.
  assert (H : keeps_order (process_crypto_data cfg plat)).
  { unfold process_crypto_data.
    apply keeps_order_after; [apply get_crypto_data_is_silent|].
    intros data. destruct (not_ data).
    - apply keeps_order_of_notifier. auto with emits.
    - apply keeps_order_after; [apply save_raw_data_is_silent|]. intros _.
      apply keeps_order_after; [apply save_data_to_db_is_silent|]. intros _.
      apply keeps_order_after; [apply emits_lift|]. intros df.
      apply keeps_order_after; [apply analyze_market_data_is_silent|].
      intros results.
      apply keeps_order_after; [apply generate_charts_is_silent|].
      intros chart_path.
      apply keeps_order_after; [apply format_market_overview_is_silent|].
      intros market_overview.
      apply keeps_order_of_notifier.
      apply emits_bind.
      + match goal with
        | |- context [if ?b then _ else _] => destruct b
        end; [|auto with emits].
        apply emits_bind; [|auto with emits].
        apply send_message_to_telegram_writes_nothing.
      + intros _. apply emits_bind; [|auto with emits].
        apply send_message_to_telegram_writes_nothing. }
  destruct (H w) as (t & T & Ht). unfold events_of.
  rewrite T, skipn_app_exact. exact Ht.
Qed.

(* ================================================================== *)
(** * Further facts: the loop without interrupt *)
(* ================================================================== *)

Section ContainedFacts.

Lemma contained_ret (A : Type) (a : A) (Q : A -> Prop) :
  Q a -> contained (ret a) Q.
Proof. intros H w Hw. simpl. auto. Qed.

Lemma contained_weaken (A : Type) (m : M A) (Q : A -> Prop) :
  contained m Q -> contained m (fun _ => True).
Proof.
  intros H w Hw. specialize (H w Hw). destruct (m w) as [[a|e] w']; tauto.
Qed.

Lemma contained_lift (A : Type) (r : result A) :
  (forall e, r = Raise e -> is_Exception e = true) ->
  contained (lift r) (fun _ => True).
Proof.
  intros H w Hw. unfold lift. destruct r as [a|e]; auto.
Qed.

Lemma contained_log (lvl : level) (site : string) :
  contained (log lvl site) (fun _ => True).
Proof. intros w Hw. simpl. auto. Qed.

Lemma contained_do (e : event) : contained (do e) (fun _ => True).
Proof. intros w Hw. simpl. auto. Qed.

Lemma contained_datetime_now : contained datetime_now (fun _ => True).
Proof. intros w Hw. simpl. auto. Qed.

Lemma contained_os_path_exists (p : path) :
  contained (os_path_exists p) (fun _ => True).
Proof. intros w Hw. simpl. auto. Qed.

Lemma contained_requests_get (limit : Z) :
  contained (requests_get limit)
    (fun r => json_data r <> Raise KeyboardInterrupt).
Proof.
  intros w [Hs Ha]. unfold requests_get, no_interrupt.
  destruct (api w) as [|[r|] rest]; cbn; inversion Ha; subst; auto.
Qed.

Lemma contained_requests_post (request : event) :
  contained (requests_post request) (fun _ => True).
Proof.
  intros w Hw. unfold requests_post.
  destruct (telegram w) as [|[|] rest]; cbn; auto.
Qed.

Lemma contained_write_file (written : event) (p : path) :
  contained (write_file written p) (fun _ => True).
Proof.
  intros w Hw. unfold write_file. destruct (disk_ok w); cbn; auto.
Qed.

(** Without interrupt, [time.sleep] returns. *)
Lemma time_sleep_returns (seconds : Z) (w : world) :
  no_interrupt w ->
  exists w', time_sleep seconds w = (Ok tt, w') /\ no_interrupt w'.
Proof.
  intros [Hs Ha]. unfold time_sleep, no_interrupt.
  destruct (signals w) as [|[|] sigs]; cbn.
  - eexists. split; [reflexivity|]. cbn. auto.
  - inversion Hs; discriminate.
  - eexists. split; [reflexivity|]. cbn. inversion Hs; auto.
Qed.

Lemma contained_bind (A B : Type) (m : M A) (k : A -> M B)
    (Q : A -> Prop) (R : B -> Prop) :
  contained m Q -> (forall a, Q a -> contained (k a) R) ->
  contained (bind m k) R.
Proof.
  intros Hm Hk w Hw. unfold bind. specialize (Hm w Hw).
  destruct (m w) as [[a|e] w1].
  - destruct Hm as [Hw1 Ha]. exact (Hk a Ha w1 Hw1).
  - exact Hm.
Qed.

Lemma contained_try_except (A : Type) (body : M A) (handler : exn -> M A)
    (Q : A -> Prop) :
  contained body Q -> (forall e, contained (handler e) Q) ->
  contained (try_except body handler) Q.
Proof.
  intros Hb Hh w Hw. unfold try_except. specialize (Hb w Hw).
  destruct (body w) as [[a|e] w1].
  - exact Hb.
  - destruct Hb as [Hw1 He]. rewrite He. exact (Hh e w1 Hw1).
Qed.

Lemma contained_for_each (A : Type) (l : list A) (body : A -> M unit) :
  (forall x, contained (body x) (fun _ => True)) ->
  contained (for_each l body) (fun _ => True).
Proof.
  intros H. induction l as [|x l IH]; simpl.
  - now apply contained_ret.
  - eapply contained_bind; [apply H | intros _ _; exact IH].
Qed.

End ContainedFacts.

Ltac contained_step :=
  first
    [ apply contained_log | apply contained_do | apply contained_datetime_now
    | apply contained_os_path_exists | apply contained_requests_post
    | apply contained_write_file
    | apply contained_ret; exact I
    | eapply contained_bind; [|intros ? _]
    | apply contained_try_except; [|intros ?]
    | apply contained_for_each; intros ? ].

Lemma getitem_raises_key_error (A : Type) (key : string) (field : option A)
    (e : exn) :
  getitem key field = Raise e -> is_Exception e = true.
Proof. destruct field; intros H; inversion H; reflexivity. Qed.

Lemma get_crypto_data_contained (cfg : config) :
  contained (get_crypto_data cfg) (fun _ => True).
Proof.
  unfold get_crypto_data. apply contained_try_except.
  - eapply contained_bind; [apply contained_requests_get|].
    intros r Hr. cbv beta. destruct (status_code r =? 200)%Z.
    + eapply contained_bind; [|intros ? _; repeat contained_step].
      apply contained_lift. intros e He.
      destruct e; try reflexivity. exfalso. exact (Hr He).
    + repeat contained_step.
  - intros e. destruct e; repeat contained_step.
Qed.

Lemma save_raw_data_contained (cfg : config) (plat : platform)
    (data : option (list coin)) :
  contained (save_raw_data cfg plat data) (fun _ => True).
Proof.
  unfold save_raw_data. destruct (not_ data); repeat contained_step.
Qed.

Lemma save_data_to_db_contained (data : option (list coin)) :
  contained (save_data_to_db data) (fun _ => True).
Proof.
  unfold save_data_to_db. destruct (not_ data); repeat contained_step.
  - apply contained_lift. apply insert_values_raises_key_error.
  - apply contained_lift. apply getitem_raises_key_error.
Qed.

Lemma convert_to_dataframe_contained (data : option (list coin)) :
  contained (lift (convert_to_dataframe data)) (fun _ => True).
Proof.
  apply contained_lift. intros e H. unfold convert_to_dataframe in H.
  destruct (not_ data); [discriminate|].
  destruct (collect coin_data (items data) []) as [out|e'] eqn:E;
    simpl in H; [discriminate|].
  inversion H; subst.
  destruct (collect_raise_inv _ _ coin_data _ _ _ E) as (x & _ & Hx).
  destruct (coin_data_raises_key_error x e Hx) as [key ->]. reflexivity.
Qed.

Lemma analyze_market_data_contained (df : option dataframe) :
  contained (analyze_market_data df) (fun _ => True).
Proof.
  unfold analyze_market_data. destruct (empty df); repeat contained_step.
Qed.

Lemma generate_charts_contained (cfg : config) (plat : platform)
    (df : option dataframe) (results : analysis_results) :
  contained (generate_charts cfg plat df results) (fun _ => True).
Proof.
  unfold generate_charts. destruct (empty df); repeat contained_step.
Qed.

Lemma format_market_overview_contained (plat : platform)
    (df : option dataframe) :
  contained (format_market_overview plat df) (fun _ => True).
Proof.
  unfold format_market_overview. destruct (empty df); repeat contained_step.
Qed.

Lemma send_text_contained (message : str) :
  contained (send_text message) (fun _ => True).
Proof.
  unfold send_text. destruct (4000 <? length message)%nat;
    repeat contained_step.
Qed.

Lemma send_message_to_telegram_contained (message : str)
    (photo_path : option path) :
  contained (send_message_to_telegram message photo_path) (fun _ => True).
Proof.
  unfold send_message_to_telegram. apply contained_try_except;
    [|intros e; repeat contained_step].
  eapply contained_bind.
  - unfold photo_available. destruct photo_path;
      [apply contained_os_path_exists | now apply contained_ret].
  - intros with_photo _. eapply contained_bind;
      [|intros ? _; repeat contained_step].
    destruct with_photo; destruct photo_path as [p|];
      try apply send_text_contained.
    eapply contained_bind; [apply contained_requests_post|]. intros _ _.
    destruct (1024 <? length message)%nat; [|now apply contained_ret].
    eapply contained_bind; [|intros ? _; now apply contained_ret].
    unfold send_message_to_telegram_text.
    apply (contained_weaken bool _ (fun _ => True)).
    apply contained_try_except; [|intros e; repeat contained_step].
    eapply contained_bind; [apply send_text_contained|].
    intros _ _. repeat contained_step.
Qed.

(** A cycle without interrupt: it returns or raises an [Exception], and
    leaves no interrupt behind. *)
Lemma process_crypto_data_contained (cfg : config) (plat : platform) :
  contained (process_crypto_data cfg plat) (fun _ => True).
Proof.
  unfold process_crypto_data.
  eapply contained_bind; [apply get_crypto_data_contained|].
  intros data _. destruct (not_ data); [apply contained_log|].
  eapply contained_bind; [apply save_raw_data_contained|]. intros _ _.
  eapply contained_bind; [apply save_data_to_db_contained|]. intros _ _.
  eapply contained_bind; [apply convert_to_dataframe_contained|].
  intros df _.
  eapply contained_bind; [apply analyze_market_data_contained|].
  intros results _.
  eapply contained_bind; [apply generate_charts_contained|].
  intros chart_path _.
  eapply contained_bind; [apply format_market_overview_contained|].
  intros market_overview _.
  eapply contained_bind with (Q := fun _ => True).
  - match goal with
    | |- contained (if ?b then _ else _) _ => destruct b
    end; [|now apply contained_ret].
    eapply contained_bind;
      [apply send_message_to_telegram_contained
      | intros ? _; now apply contained_ret].
  - intros _ _.
    eapply contained_bind;
      [apply send_message_to_telegram_contained
      | intros ? _; apply contained_log].
Qed.

(** X17. Without an interrupt the loop of [main] never ends: whatever the
    cycles meet (failed fetches, missing keys, a disk that cannot be
    written, Telegram raising), after any number of turns [main] is still
    in its loop. *)
Theorem main_loop_runs_until_interrupted :
  forall (cfg : config) (plat : platform) (n : nat) (w : world),
    no_interrupt w ->
    fst (main_loop cfg plat n w) = Ok Running
    /\ no_interrupt (snd (main_loop cfg plat n w)).
Proof.
  intros cfg plat n. induction n as [|n IH]; intros w Hw.
  - split; [reflexivity | exact Hw].
  - cbn [main_loop].
    assert (Hc : contained
                   (log INFO "Esperando hasta la próxima actualización" ;;;
                    time_sleep (FETCH_INTERVAL cfg) ;;;
                    process_crypto_data cfg plat) (fun _ => True)).
    { eapply contained_bind; [apply contained_log|]. intros _ _.
      eapply contained_bind with (Q := fun _ => True);
        [|intros _ _; apply process_crypto_data_contained].
      intros w0 Hw0.
      destruct (time_sleep_returns (FETCH_INTERVAL cfg) w0 Hw0)
        as (w1 & E & Hw1).
      rewrite E. split; [exact Hw1 | exact I]. }
    specialize (Hc w Hw).
    destruct ((log INFO "Esperando hasta la próxima actualización" ;;;
               time_sleep (FETCH_INTERVAL cfg) ;;;
               process_crypto_data cfg plat) w) as [[[]|e] w'].
    + destruct Hc as [Hw' _]. exact (IH w' Hw').
    + destruct Hc as [Hw' He].
      assert (Hback :
        exists w2,
          (log ERROR "Error en el bucle principal" ;;;
           time_sleep 60 ;;; main_loop cfg plat n) w'
          = main_loop cfg plat n w2 /\ no_interrupt w2).
      { unfold bind at 1, log.
        destruct (time_sleep_returns 60
                    (emit (Log ERROR "Error en el bucle principal") w'))
          as (w2 & E & Hw2); [exact Hw'|].
        exists w2. split; [|exact Hw2].
        now rewrite (bind_ok _ _ _ _ _ w2 tt E). }
      destruct Hback as (w2 & E & Hw2).
      destruct e; try discriminate; rewrite E; exact (IH w2 Hw2).
Qed.

Lemma main_loop_runs_witness :
  fst (main_loop Sample.cfg Sample.plat 3
         (initial [Sample.http 200 Sample.payload_with_gap; None]
                  [false] [] false))
  = Ok Running.
Proof.
  apply (main_loop_runs_until_interrupted Sample.cfg Sample.plat 3
           (initial [Sample.http 200 Sample.payload_with_gap; None]
                    [false] [] false)).
  split.
  - constructor.
  - repeat constructor. discriminate.
Defined.

(* ================================================================== *)
(** * Further facts: the limits of the transport *)
(* ================================================================== *)

Lemma emits_only_weaken (A : Type) (P P' : event -> bool) (m : M A) :
  (forall e, P e = true -> P' e = true) ->
  emits_only P m -> emits_only P' m.
Proof.
  intros Himp H w. destruct (H w) as (t & T & F). exists t.
  split; [exact T|]. rewrite forallb_forall in *. auto.
Qed.

Lemma silent_is_within_limits (e : event) :
  negb (is_notification e) = true -> within_limits e = true.
Proof. destruct e; simpl; auto; discriminate. Qed.

Lemma post_each_within_limits (l : list str) :
  Forall (fun chunk => (length chunk <= 4000)%nat) l ->
  emits_only within_limits
    (for_each l (fun chunk => requests_post (SendMessage chunk))).
Proof.
  induction 1 as [|x l Hx _ IH]; simpl.
  - apply emits_ret.
  - apply emits_bind; [|intros _; exact IH].
    apply emits_requests_post. simpl. now apply Nat.leb_le.
Qed.

Lemma send_text_within_limits (message : str) :
  emits_only within_limits (send_text message).
Proof.
  unfold send_text. destruct (4000 <? length message)%nat eqn:E.
  - apply post_each_within_limits. apply chunks_tile.
  - apply emits_requests_post. simpl. apply Nat.leb_le.
    now apply Nat.ltb_ge.
Qed.

Lemma send_message_to_telegram_within_limits (message : str)
    (photo_path : option path) :
  emits_only within_limits (send_message_to_telegram message photo_path).
Proof.
  unfold send_message_to_telegram. apply emits_try_except;
    [|auto with emits].
  apply emits_bind.
  - unfold photo_available. destruct photo_path; auto with emits.
  - intros with_photo. apply emits_bind; [|auto with emits].
    destruct with_photo; destruct photo_path as [p|];
      try apply send_text_within_limits.
    apply emits_bind.
    + apply emits_requests_post. simpl. apply Nat.leb_le.
      rewrite slice_from_0. apply firstn_le_length.
    + intros _. destruct (1024 <? length message)%nat; [|auto with emits].
      apply emits_bind; [|auto with emits].
      unfold send_message_to_telegram_text. apply emits_try_except;
        [|auto with emits].
      apply emits_bind; [apply send_text_within_limits | auto with emits].
Qed.

(** X18. Whatever the message, the photo and the world,
    [send_message_to_telegram] never attempts a text of more than 4000
    characters nor a caption of more than 1024; and so does a whole cycle,
    whatever it meets, since nothing else in a cycle posts to Telegram. *)
Theorem nothing_sent_exceeds_the_limits :
  forall (cfg : config) (plat : platform) (w : world),
    (forall message photo_path,
       forallb within_limits
         (events_of (send_message_to_telegram message photo_path) w) = true)
    /\ forallb within_limits (events_of (process_crypto_data cfg plat) w)
       = true.
Proof.
  intros cfg plat w. split.
  - intros message photo_path.
    destruct (send_message_to_telegram_within_limits message photo_path w)
      as (t & T & F).
    unfold events_of. now rewrite T, skipn_app_exact.
  - assert (H : emits_only within_limits (process_crypto_data cfg plat)).
    { unfold process_crypto_data.
      apply emits_bind.
      { eapply emits_only_weaken; [apply silent_is_within_limits|].
        apply get_crypto_data_is_silent. }
      intros data. destruct (not_ data); [auto with emits|].
      apply emits_bind.
      { eapply emits_only_weaken; [apply silent_is_within_limits|].
        apply save_raw_data_is_silent. }
      intros _. apply emits_bind.
      { eapply emits_only_weaken; [apply silent_is_within_limits|].
        apply save_data_to_db_is_silent. }
      intros _. apply emits_bind; [apply emits_lift|].
      intros df. apply emits_bind.
      { eapply emits_only_weaken; [apply silent_is_within_limits|].
        apply analyze_market_data_is_silent. }
      intros results. apply emits_bind.
      { eapply emits_only_weaken; [apply silent_is_within_limits|].
        apply generate_charts_is_silent. }
      intros chart_path. apply emits_bind.
      { eapply emits_only_weaken; [apply silent_is_within_limits|].
        apply format_market_overview_is_silent. }
      intros market_overview. apply emits_bind.
      - match goal with
        | |- emits_only _ (if ?b then _ else _) => destruct b
        end; [|auto with emits].
        apply emits_bind; [|auto with emits].
        apply send_message_to_telegram_within_limits.
      - intros _. apply emits_bind; [|auto with emits].
        apply send_message_to_telegram_within_limits. }
    destruct (H w) as (t & T & F).
    unfold events_of. now rewrite T, skipn_app_exact.
Qed.

(* ================================================================== *)
(** * Further facts: a cycle that meets no failure *)
(* ================================================================== *)

Section SteadyFacts.

Lemma steady_ret (A : Type) (a : A) : steady (ret a).
Proof. intros w. simpl. auto using incl_refl. Qed.

Lemma steady_lift (A : Type) (r : result A) : steady (lift r).
Proof. intros w. simpl. auto using incl_refl. Qed.

Lemma steady_log (lvl : level) (site : string) : steady (log lvl site).
Proof. intros w. simpl. auto using incl_refl. Qed.

Lemma steady_do (e : event) : steady (do e).
Proof. intros w. simpl. auto using incl_refl. Qed.

Lemma steady_datetime_now : steady datetime_now.
Proof. intros w. simpl. auto using incl_refl. Qed.

Lemma steady_requests_get (limit : Z) : steady (requests_get limit).
Proof.
  intros w. unfold requests_get.
  destruct (api w) as [|[r|] rest]; simpl; auto using incl_refl.
Qed.

Lemma steady_write_file (written : event) (p : path) :
  steady (write_file written p).
Proof.
  intros w. unfold write_file. destruct (disk_ok w) eqn:E; simpl.
  - repeat split; auto. apply incl_tl, incl_refl.
  - auto using incl_refl.
Qed.

Lemma steady_bind (A B : Type) (m : M A) (k : A -> M B) :
  steady m -> (forall a, steady (k a)) -> steady (bind m k).
Proof.
  intros Hm Hk w. unfold bind. destruct (Hm w) as (T1 & D1 & F1).
  destruct (m w) as [[a|e] w1]; simpl in *.
  - destruct (Hk a w1) as (T2 & D2 & F2).
    repeat split; try congruence. eapply incl_tran; eassumption.
  - auto.
Qed.

Lemma steady_try_except (A : Type) (body : M A) (handler : exn -> M A) :
  steady body -> (forall e, steady (handler e)) ->
  steady (try_except body handler).
Proof.
  intros Hb Hh w. unfold try_except. destruct (Hb w) as (T1 & D1 & F1).
  destruct (body w) as [[a|e] w1]; simpl in *.
  - auto.
  - destruct (is_Exception e); simpl; [|auto].
    destruct (Hh e w1) as (T2 & D2 & F2).
    repeat split; try congruence. eapply incl_tran; eassumption.
Qed.

Lemma steady_for_each (A : Type) (l : list A) (body : A -> M unit) :
  (forall x, steady (body x)) -> steady (for_each l body).
Proof.
  intros H. induction l as [|x l IH]; simpl.
  - apply steady_ret.
  - apply steady_bind; [apply H | intros _; exact IH].
Qed.

End SteadyFacts.

Create HintDb steady.

#[local] Hint Resolve steady_ret steady_lift steady_log steady_do
  steady_datetime_now steady_requests_get steady_write_file steady_bind
  steady_try_except steady_for_each : steady.

Lemma get_crypto_data_steady (cfg : config) : steady (get_crypto_data cfg).
Proof.
  unfold get_crypto_data. apply steady_try_except.
  - apply steady_bind; [apply steady_requests_get|].
    intros r. destruct (status_code r =? 200)%Z; auto 10 with steady.
  - intros e. destruct e; auto 10 with steady.
Qed.

Lemma save_raw_data_steady (cfg : config) (plat : platform)
    (data : option (list coin)) :
  steady (save_raw_data cfg plat data).
Proof.
  unfold save_raw_data. destruct (not_ data); auto 10 with steady.
Qed.

Lemma save_data_to_db_steady (data : option (list coin)) :
  steady (save_data_to_db data).
Proof.
  unfold save_data_to_db. destruct (not_ data); auto 10 with steady.
Qed.

Lemma analyze_market_data_steady (df : option dataframe) :
  steady (analyze_market_data df).
Proof.
  unfold analyze_market_data. destruct (empty df); [auto with steady|].
  apply steady_bind; [|auto with steady].
  unfold save_analysis_results. apply steady_try_except; [|auto with steady].
  repeat (apply steady_bind; [|intros _]);
    try (apply steady_for_each; intros r); auto with steady.
Qed.

Lemma format_market_overview_steady (plat : platform)
    (df : option dataframe) :
  steady (format_market_overview plat df).
Proof.
  unfold format_market_overview. destruct (empty df); auto 10 with steady.
Qed.

Lemma silent_has_no_caption (t : list event) :
  forallb (fun e => negb (is_notification e)) t = true ->
  sent_captions t = [].
Proof.
  induction t as [|e t IH]; simpl; [reflexivity|].
  intros H. apply andb_prop in H. destruct H as [He Ht].
  destruct e; simpl in *; auto; discriminate.
Qed.

(** A step of the cycle that comes before the notifier, seen from the
    notifier: no caption sent, Telegram and the disk as they were, no file
    lost. *)
Lemma backstage (A : Type) (m : M A) (w : world) :
  emits_only (fun e => negb (is_notification e)) m ->
  steady m ->
  exists evs,
    trace (snd (m w)) = trace w ++ evs
    /\ sent_captions evs = []
    /\ telegram (snd (m w)) = telegram w
    /\ disk_ok (snd (m w)) = disk_ok w
    /\ incl (files w) (files (snd (m w))).
Proof.
  intros He Hs. destruct (He w) as (evs & T & F).
  destruct (Hs w) as (Ht & Hd & Hf).
  exists evs. repeat split; auto. now apply silent_has_no_caption.
Qed.

(** The text branch when Telegram answers, with what it leaves behind. *)
Lemma send_text_run (message : str) (w : world) :
  telegram_up w ->
  exists w',
    send_text message w = (Ok tt, w')
    /\ trace w'
       = trace w
         ++ map SendMessage
              (if (4000 <? length message)%nat then chunks message
               else [message])
    /\ telegram_up w' /\ files w' = files w.
Proof.
  intros Hup. unfold send_text. destruct (4000 <? length message)%nat.
  - apply post_each_up. exact Hup.
  - apply requests_post_up. exact Hup.
Qed.

Lemma send_message_to_telegram_text_run (message : str) (w : world) :
  telegram_up w ->
  exists w' evs,
    send_message_to_telegram_text message w = (Ok true, w')
    /\ trace w' = trace w ++ evs
    /\ sent_captions evs = []
    /\ telegram_up w' /\ files w' = files w.
Proof.
  intros Hup. destruct (send_text_run message w Hup) as (w1 & E & T & U & F).
  unfold send_message_to_telegram_text, try_except.
  rewrite (bind_ok _ _ _ _ w w1 tt E). unfold bind, log, ret.
  eexists _, _. split; [reflexivity|]. unfold emit. cbn [trace telegram files].
  rewrite T, <- app_assoc. repeat split; auto.
  rewrite sent_captions_app, sent_captions_messages. reflexivity.
Qed.

(** An image-send when the photo is on disk and Telegram answers: one
    photo, with the first 1024 characters of the message. *)
Lemma send_photo_run (message : str) (p : path) (w : world) :
  In p (files w) ->
  telegram_up w ->
  exists w' evs,
    send_message_to_telegram message (Some p) w = (Ok true, w')
    /\ trace w' = trace w ++ evs
    /\ sent_captions evs = [firstn 1024 message].
Proof.
  intros Hp Hup.
  destruct (requests_post_up (SendPhoto p (firstn 1024 message)) w Hup)
    as (w1 & E1 & T1 & U1 & F1).
  unfold send_message_to_telegram, try_except, bind, photo_available,
    os_path_exists.
  rewrite (exists_on_disk p w Hp), slice_from_0, E1.
  destruct (1024 <? length message)%nat.
  - destruct (send_message_to_telegram_text_run (skipn 1024 message) w1 U1)
      as (w2 & evs & E2 & T2 & C2 & _ & _).
    rewrite E2. unfold ret, log, emit. cbn [fst snd].
    eexists _, _. split; [reflexivity|]. cbn [trace].
    rewrite T2, T1. repeat rewrite <- app_assoc. split; [reflexivity|].
    simpl. rewrite sent_captions_app, C2. reflexivity.
  - unfold ret, log, emit. cbn [fst snd].
    eexists _, _. split; [reflexivity|]. cbn [trace].
    rewrite T1. repeat rewrite <- app_assoc. split; reflexivity.
Qed.

Lemma complete_has_symbol (c : coin) : complete c -> coin_symbol c <> None.
Proof.
  intros (i & n & s & u & p & m & v & c1 & c24 & c7 & _ & _ & Hs & _).
  rewrite Hs. discriminate.
Qed.

Lemma save_raw_data_returns (cfg : config) (plat : platform) (c : coin)
    (data : list coin) (w : world) :
  disk_ok w = true ->
  fst (save_raw_data cfg plat (Some (c :: data)) w) = Ok tt.
Proof.
  intros Hd. unfold save_raw_data. cbn [not_].
  unfold bind, datetime_now, write_file, log. now rewrite Hd.
Qed.

Lemma save_data_to_db_returns (c : coin) (data : list coin) (w : world) :
  Forall complete (c :: data) ->
  fst (save_data_to_db (Some (c :: data)) w) = Ok tt.
Proof.
  intros H.
  assert (Hs : Forall (fun x => coin_symbol x <> None) (c :: data))
    by (eapply Forall_impl; [|exact H]; apply complete_has_symbol).
  destruct (save_loop (c :: data) w Hs) as (w' & E & _).
  unfold save_data_to_db. cbn [not_ items].
  rewrite (bind_ok _ _ _ _ w w' tt E). reflexivity.
Qed.

Lemma convert_to_dataframe_complete (c : coin) (data : list coin) :
  Forall complete (c :: data) ->
  exists x rows,
    convert_to_dataframe (Some (c :: data)) = Ok (Some (x :: rows)).
Proof.
  intros H. unfold convert_to_dataframe. cbn [not_ items].
  destruct (collect_total _ _ coin_data (c :: data) []) as (rs & E & Hl).
  - eapply Forall_impl; [|exact H]. apply coin_data_complete.
  - rewrite E. simpl. destruct rs as [|x rows]; [discriminate|].
    exists x, rows. reflexivity.
Qed.

Lemma analyze_market_data_returns (x : row) (rows : dataframe) (w : world) :
  fst (analyze_market_data (Some (x :: rows)) w)
  = Ok (Some (analysis (x :: rows))).
Proof.
  destruct (save_analysis_results_trace (analysis (x :: rows)) w)
    as (w' & E & _).
  unfold analyze_market_data. cbn [empty not_ items].
  rewrite (bind_ok _ _ _ _ w w' tt E). reflexivity.
Qed.

Lemma generate_charts_saves (cfg : config) (plat : platform) (x : row)
    (rows : dataframe) (results : analysis_results) (w : world) :
  disk_ok w = true ->
  exists p w' evs,
    generate_charts cfg plat (Some (x :: rows)) results w = (Ok (Some p), w')
    /\ In p (files w')
    /\ telegram w' = telegram w
    /\ trace w' = trace w ++ evs
    /\ sent_captions evs = [].
Proof.
  intros Hd. unfold generate_charts. cbn [empty not_].
  unfold bind, datetime_now, try_except, write_file, log, ret.
  rewrite Hd. cbn. eexists _, _, _. split; [reflexivity|]. cbn.
  split; [now left|]. split; [reflexivity|].
  rewrite <- app_assoc. split; reflexivity.
Qed.

Lemma format_market_overview_returns (plat : platform)
    (df : option dataframe) (w : world) :
  exists market_overview,
    format_market_overview plat df w = (Ok market_overview, w).
Proof.
  unfold format_market_overview. destruct (empty df).
  - eexists. reflexivity.
  - unfold bind, datetime_now, ret. eexists. reflexivity.
Qed.



(* ================================================================== *)
(** * Further facts: a cycle of CryptoBot.py that meets no failure *)
(* ================================================================== *)

Lemma format_coins_complete (plat : platform) (data : list coin)
    (message : str) :
  Forall complete data ->
  exists out, CryptoBot.format_coins plat data message = Ok out.
Proof.
  intros H; revert message; induction H as [|c l Hc _ IH]; intros message.
  - exists message. reflexivity.
  - destruct Hc as (i & n & s & u & p & m & v & c1 & c24 & c7
                    & Hi & Hn & Hs & Hq & Hp & Hm & Hv & H1 & H24 & H7).
    cbn [CryptoBot.format_coins]. unfold usd.
    rewrite Hn, Hs, Hq. cbn [getitem rbind]. rewrite Hp, H24, Hv.
    cbn [getitem rbind]. apply IH.
Qed.

(** X23. A cycle of [CryptoBot.py] on a payload whose assets have all
    their keys, when the POST to Telegram returns: one GET for 5 assets,
    one message, sent whole whatever its length, then a sleep of 3600
    seconds. *)
Theorem CryptoBot_cycle_sends_one_message :
  forall (plat : platform) (w : world) (r : response)
         (rest : list (option response)) (c : coin) (data : list coin),
    api w = Some r :: rest ->
    status_code r = 200%Z ->
    json_data r = Ok (c :: data) ->
    Forall complete (c :: data) ->
    telegram_up w ->
    exists message,
      CryptoBot.format_crypto_message plat (c :: data) = Ok message
      /\ events_of (CryptoBot.cycle plat) w
         = [HttpGet 5; SendMessage message; Sleep 3600].
Proof.
  intros plat w r rest c data Ha Hs Hj Hc Hup.
  destruct (format_coins_complete plat (c :: data)
              (lit "📊 *Top 5 Criptomonedas*" ++ nl ++ nl) Hc)
    as (message & Hm).
  exists message. split; [exact Hm|].
  assert (Hget : exists w1,
            CryptoBot.get_crypto_data w = (Ok (Some (c :: data)), w1)
            /\ trace w1 = trace w ++ [HttpGet 5]
            /\ telegram w1 = telegram w).
  { unfold CryptoBot.get_crypto_data, bind, requests_get, lift, ret.
    rewrite Ha. apply Z.eqb_eq in Hs. rewrite Hs, Hj.
    eexists. repeat split. }
  destruct Hget as (w1 & E1 & T1 & G1).
  assert (U1 : telegram_up w1) by (unfold telegram_up in *; congruence).
  destruct (requests_post_up (SendMessage message) w1 U1)
    as (w2 & E2 & T2 & _ & _).
  unfold events_of, CryptoBot.cycle.
  rewrite (bind_ok _ _ _ _ w w1 _ E1). cbn [not_ items].
  assert (E3 : (message0 <- lift (CryptoBot.format_crypto_message plat
                                     (c :: data)) ;;
                CryptoBot.send_message_to_telegram message0) w1
               = (Ok tt, w2)).
  { unfold CryptoBot.format_crypto_message. rewrite Hm. exact E2. }
  rewrite (bind_ok _ _ _ _ w1 w2 _ E3).
  unfold time_sleep, CryptoBot.FETCH_INTERVAL.
  destruct (signals w2) as [|[|] sigs]; cbn [fst snd trace];
    rewrite T2, T1; repeat rewrite <- app_assoc;
    apply skipn_app_exact.
Qed.

Lemma CryptoBot_cycle_sends_one_message_witness :
  exists message,
    CryptoBot.format_crypto_message Sample.plat Sample.payload = Ok message
    /\ events_of (CryptoBot.cycle Sample.plat)
         (initial [Sample.http 200 Sample.payload] [] [] true)
       = [HttpGet 5; SendMessage message; Sleep 3600].
Proof.
  apply (CryptoBot_cycle_sends_one_message Sample.plat
           (initial [Sample.http 200 Sample.payload] [] [] true)
           {| status_code := 200; json_data := Ok Sample.payload |}
           [] Sample.bitcoin [Sample.ethereum]);
    try reflexivity.
  - repeat constructor; unfold complete;
      eexists _, _, _, _, _, _, _, _, _, _; repeat split.
  - constructor.
Defined.

Lemma gainers_losers_disjoint_witness :
  In (Sample.quote_row 10 "X" 1 0 10 0) (top_gainers_rows Sample.eleven)
  /\ ~ In (Sample.quote_row 10 "X" 1 0 10 0) (top_losers_rows Sample.eleven).
Proof.
  split; [vm_compute; left; reflexivity|].
  apply (gainers_losers_disjoint Sample.eleven
           (Sample.quote_row 10 "X" 1 0 10 0)).
  - apply Nat.leb_le. reflexivity.
  - unfold Sample.eleven. cbn [seq map].
    repeat (constructor;
            [repeat (constructor;
                     [cbn; intros H; vm_compute in H; discriminate H|]);
             constructor|]).
    constructor.
  - vm_compute. left. reflexivity.
Defined.
